(** * Restaurant-ETL: the menu parsing pipeline

    A shallow embedding of [restaurant_etl/models/menu_models.py] and
    [restaurant_etl/parsers/llm_parser.py], and the properties of the
    chunker, the retry loop, record validation, aggregation and the
    summary statistics.

    Modelling conventions.
    - A Python [str] is a list of Unicode code points ([list N]); [len] is
      [length].
    - A JSON number / Python [float] price is a rational ([Q]).  The code only
      compares prices with the constants 0 and 100000, hands them through
      unchanged, and (in the summary) adds and divides them; rounding of
      binary floating point is not modelled.
    - A raised Python exception is a [Raise e] result; [try/except Exception] is a
      match on it.
    - The Azure client behind [_call_llm] is an environment: a transition
      function on an abstract world state that either returns schema-valid
      data or raises. *)

From Stdlib Require Import QArith Qabs Ascii String.
From stdpp Require Import gmap list fin_maps.
From Equations Require Import Equations.

Close Scope string_scope.
Open Scope nat_scope.

(** ** Python strings *)

Definition char := N.
Definition str := list char.

(** An ASCII literal as a [str]. *)
Definition py (s : String.string) : str :=
  map Ascii.N_of_ascii (String.list_ascii_of_string s).
Arguments py s%_string.

(** [str.isspace] on one code point (the characters [str.strip] and
    [str.split] treat as whitespace). *)
Definition is_space (c : char) : bool :=
  ((9 <=? c) && (c <=? 13) || (28 <=? c) && (c <=? 32)
   || (c =? 133) || (c =? 160) || (c =? 5760)
   || (8192 <=? c) && (c <=? 8202)
   || (c =? 8232) || (c =? 8233) || (c =? 8239) || (c =? 8287)
   || (c =? 12288))%N.

Fixpoint lstrip (s : str) : str :=
  match s with
  | c :: s' => if is_space c then lstrip s' else s
  | [] => []
  end.

Definition rstrip (s : str) : str := rev (lstrip (rev s)).

(** [s.strip()] *)
Definition strip (s : str) : str := rstrip (lstrip s).

(** [s[start:end_]] for [0 <= start <= end_]. *)
Definition slice (s : str) (start end_ : nat) : str :=
  firstn (end_ - start) (skipn start s).

(** [s.split()]: the maximal runs of non-whitespace characters.  [cur] is the
    run being read, in reverse. *)
Fixpoint split_ws (cur : str) (s : str) : list str :=
  match s with
  | [] => if cur is [] then [] else [rev cur]
  | c :: s' =>
      if is_space c
      then (if cur is [] then split_ws [] s' else rev cur :: split_ws [] s')
      else split_ws (c :: cur) s'
  end.

(** [sep.join(parts)] *)
Fixpoint join (sep : str) (parts : list str) : str :=
  match parts with
  | [] => []
  | [p] => p
  | p :: ps => p ++ sep ++ join sep ps
  end.

(** Truthiness of a [str] and of an [Optional[str]]. *)
Definition str_or (o : option str) (dflt : str) : str :=
  match o with
  | Some (c :: s) => c :: s
  | _ => dflt
  end.

(** ** The chunker: [LLMMenuParser._chunk_text] *)

Definition max_chars : nat := 2000.

(** The [while start < len(text)] loop; [chunks] is the list being appended
    to. *)
Equations? chunk_loop (text : str) (start : nat) (chunks : list str) : list str
  by wf (length text - start) lt :=
  chunk_loop text start chunks with lt_dec start (length text) => {
    | left _ =>
        chunk_loop text (Nat.min (start + max_chars) (length text))
          (chunks ++
             [strip (slice text start (Nat.min (start + max_chars) (length text)))]);
    | right _ => chunks }.
Proof. unfold max_chars. lia. Qed.

Definition _chunk_text (text : str) : list str :=
  if length text <=? max_chars then [text]
  else chunk_loop text 0 [].

(** [ceil(a / b)] on natural numbers. *)
Definition ceil_div (a b : nat) : nat := (a + b - 1) / b.
Arguments ceil_div : simpl never.

(** The same loop without the [.strip()]: the untrimmed segments
    [text[start:end]] the loop cuts, in order. *)
Equations? segment_loop (text : str) (start : nat) (segs : list str) : list str
  by wf (length text - start) lt :=
  segment_loop text start segs with lt_dec start (length text) => {
    | left _ =>
        segment_loop text (Nat.min (start + max_chars) (length text))
          (segs ++ [slice text start (Nat.min (start + max_chars) (length text))]);
    | right _ => segs }.
Proof. unfold max_chars. lia. Qed.

Definition untrimmed_segments (text : str) : list str :=
  if length text <=? max_chars then [text]
  else segment_loop text 0 [].


(** ** Exceptions and results *)

Inductive exn :=
| ValidationError (field : String.string) (kind : String.string)
| ZeroDivisionError
| ClientError.

Inductive result (A : Type) :=
| Ok (a : A)
| Raise (e : exn).
Arguments Ok {A} a.
Arguments Raise {A} e.

Definition bind {A B} (r : result A) (k : A -> result B) : result B :=
  match r with
  | Ok a => k a
  | Raise e => Raise e
  end.

Notation "x <- r ;; k" := (bind r (fun x => k))
  (at level 100, r at next level, right associativity).

Definition is_ok {A} (r : result A) : bool :=
  match r with Ok _ => true | Raise _ => false end.

(** ** Numbers *)

(** [x < y] on prices. *)
Definition Qltb (x y : Q) : bool := negb (Qle_bool y x).

(** Truthiness of an [Optional[float]]: [None] and [0] are falsy. *)
Definition truthy (o : option Q) : bool :=
  match o with
  | Some x => negb (Qeq_bool x 0)
  | None => false
  end.

(** [a or b] on [Optional[float]] operands. *)
Definition py_or (a b : option Q) : option Q :=
  if truthy a then a else b.

(** [a / b] on Python integers. *)
Definition py_truediv (a b : nat) : result Q :=
  if b =? 0 then Raise ZeroDivisionError
  else Ok (Z.of_nat a # Pos.of_nat b).

(** ** [menu_models.MenuItem] *)

(** One element of the ["items"] array of a response that passed
    [jsonschema.validate] against [MENU_JSON_SCHEMA]: [item_name] is a
    string, every other property is absent or null ([None]) or has its
    declared type, and no other property occurs. *)
Record raw_item := {
  raw_item_name : str;
  raw_category : option str;
  raw_description : option str;
  raw_price : option Q;
  raw_half_plate_price : option Q;
  raw_full_plate_price : option Q;
  raw_small_price : option Q;
  raw_medium_price : option Q;
  raw_large_price : option Q;
  raw_price_display : option str
}.

Record MenuItem := {
  item_name : str;
  category : option str;
  description : option str;
  price : option Q;
  half_plate_price : option Q;
  full_plate_price : option Q;
  small_price : option Q;
  medium_price : option Q;
  large_price : option Q;
  currency : option str;
  spice_level : option str;
  dietary_tags : list str
}.

(** [Field(..., min_length=2)]: checked on the string as given, before the
    [clean_name] validator runs. *)
Definition check_min_length (v : str) : result str :=
  if 2 <=? length v then Ok v
  else Raise (ValidationError "item_name" "string_too_short").

(** [clean_name] *)
Definition clean_name (v : str) : str :=
  strip (join (py " ") (split_ws [] v)).

(** [Field(None, ge=0)] on an [Optional[float]] field. *)
Definition check_ge0 (field : String.string) (v : option Q) : result (option Q) :=
  match v with
  | Some x =>
      if Qle_bool 0 x then Ok v
      else Raise (ValidationError field "greater_than_equal")
  | None => Ok None
  end.

(** [validate_price] *)
Definition validate_price (field : String.string) (v : option Q)
  : result (option Q) :=
  match v with
  | Some x =>
      if Qltb x 0 then Raise (ValidationError field "Price cannot be negative")
      else if Qltb (100000 # 1) x
           then Raise (ValidationError field "Price seems unreasonably high")
           else Ok v
  | None => Ok v
  end.

Definition price_field (field : String.string) (v : option Q)
  : result (option Q) :=
  v' <- check_ge0 field v ;; validate_price field v'.

(** The constructor call [MenuItem] makes on the keyword arguments of a
    schema-valid [item].  [price_display] is not a
    field of the model and is ignored; [currency], [spice_level] and
    [dietary_tags] are never in a schema-valid item and take their
    defaults.  The first failing field is reported. *)
Definition MenuItem_init (item : raw_item) : result MenuItem :=
  n <- check_min_length (raw_item_name item) ;;
  p <- price_field "price" (raw_price item) ;;
  hp <- price_field "half_plate_price" (raw_half_plate_price item) ;;
  fp <- price_field "full_plate_price" (raw_full_plate_price item) ;;
  sp <- price_field "small_price" (raw_small_price item) ;;
  mp <- price_field "medium_price" (raw_medium_price item) ;;
  lp <- price_field "large_price" (raw_large_price item) ;;
  Ok {| item_name := clean_name n;
        category := raw_category item;
        description := raw_description item;
        price := p;
        half_plate_price := hp;
        full_plate_price := fp;
        small_price := sp;
        medium_price := mp;
        large_price := lp;
        currency := None;
        spice_level := None;
        dietary_tags := [] |}.

(** The item the constructor builds when no check fails. *)
Definition item_of_raw (item : raw_item) : MenuItem :=
  {| item_name := clean_name (raw_item_name item);
     category := raw_category item;
     description := raw_description item;
     price := raw_price item;
     half_plate_price := raw_half_plate_price item;
     full_plate_price := raw_full_plate_price item;
     small_price := raw_small_price item;
     medium_price := raw_medium_price item;
     large_price := raw_large_price item;
     currency := None;
     spice_level := None;
     dietary_tags := [] |}.

(** The invariant of a price field: absent, or within [0, 100000]. *)
Definition price_ok (v : option Q) : Prop :=
  match v with
  | Some x => (0 <= x)%Q /\ (x <= 100000 # 1)%Q
  | None => True
  end.

(** A price field that is not a zero. *)
Definition nonzero (v : option Q) : Prop :=
  match v with
  | Some x => ~ (x == 0)%Q
  | None => True
  end.

Definition is_not_None {A} (o : option A) : bool :=
  match o with Some _ => true | None => false end.

(** [any(l)] *)
Definition any (l : list bool) : bool := existsb (fun b => b) l.

Definition has_any_price (self : MenuItem) : bool :=
  any [ is_not_None (price self);
        is_not_None (half_plate_price self);
        is_not_None (full_plate_price self);
        is_not_None (small_price self);
        is_not_None (medium_price self);
        is_not_None (large_price self) ].

Definition get_primary_price (self : MenuItem) : option Q :=
  py_or (price self)
    (py_or (full_plate_price self)
       (py_or (half_plate_price self)
          (py_or (large_price self)
             (py_or (medium_price self) (small_price self))))).

(** The six price fields of an item, in declaration order. *)
Definition price_fields (m : MenuItem) : list (option Q) :=
  [ price m; half_plate_price m; full_plate_price m;
    small_price m; medium_price m; large_price m ].

Definition raw_price_fields (r : raw_item) : list (option Q) :=
  [ raw_price r; raw_half_plate_price r; raw_full_plate_price r;
    raw_small_price r; raw_medium_price r; raw_large_price r ].

(** The primary price as the specification words it: the first non-null
    field in the order single, full, half, large, medium, small. *)
Fixpoint first_non_null (l : list (option Q)) : option Q :=
  match l with
  | [] => None
  | Some x :: _ => Some x
  | None :: l' => first_non_null l'
  end.

Definition spec_primary_price (m : MenuItem) : option Q :=
  first_non_null [ price m; full_plate_price m; half_plate_price m;
                   large_price m; medium_price m; small_price m ].

(** ** [menu_models.MenuData] *)

Record MenuData := {
  items : list MenuItem;
  restaurant_name : option str;
  total_items : nat;
  source_file : option str;
  extraction_confidence : Q;
  detected_currency : option str;
  extraction_method : option str
}.

(** The constructor call [MenuData(restaurant_name=..., items=...,
    total_items=..., extraction_confidence=...)]: the other fields take
    their defaults, and [extraction_confidence] is declared with
    [ge=0.0, le=1.0]. *)
Definition MenuData_init (name : option str) (its : list MenuItem)
    (total : nat) (confidence : Q) : result MenuData :=
  if negb (Qle_bool 0 confidence)
  then Raise (ValidationError "extraction_confidence" "greater_than_equal")
  else if negb (Qle_bool confidence 1)
  then Raise (ValidationError "extraction_confidence" "less_than_equal")
  else Ok {| items := its;
             restaurant_name := name;
             total_items := total;
             source_file := None;
             extraction_confidence := confidence;
             detected_currency := None;
             extraction_method := None |}.

(** [min(l)], [max(l)] and [sum(l)] of a non-empty list [x :: l]: Python
    keeps the first of several equal extremes. *)
Definition py_min (x : Q) (l : list Q) : Q :=
  fold_left (fun m y => if Qltb y m then y else m) l x.

Definition py_max (x : Q) (l : list Q) : Q :=
  fold_left (fun m y => if Qltb m y then y else m) l x.

Definition py_sum (l : list Q) : Q := fold_left Qplus l 0%Q.

Record PriceRange := {
  range_min : option Q;
  range_max : option Q;
  range_avg : option Q
}.

Record Summary := {
  summary_total_items : nat;
  summary_items_with_prices : nat;
  summary_categories : gmap str nat;
  summary_price_range : PriceRange;
  summary_currency : option str
}.

(** The local variables of [get_summary] that its loop updates. *)
Record summary_state := {
  categories : gmap str nat;
  total_with_prices : nat;
  price_range : list Q
}.

(** [price_range.append(primary_price)] under [if primary_price:]. *)
Definition append_if_truthy (l : list Q) (o : option Q) : list Q :=
  match o with
  | Some x => if truthy o then l ++ [x] else l
  | None => l
  end.

(** One iteration of [for item in self.items]. *)
Definition summary_step (st : summary_state) (item : MenuItem) : summary_state :=
  let cat := str_or (category item) (py "Uncategorized") in
  let categories' :=
    <[cat := default 0 (categories st !! cat) + 1]> (categories st) in
  if has_any_price item
  then {| categories := categories';
          total_with_prices := total_with_prices st + 1;
          price_range := append_if_truthy (price_range st) (get_primary_price item) |}
  else {| categories := categories';
          total_with_prices := total_with_prices st;
          price_range := price_range st |}.

(** The [price_range] dictionary.  [avg] is the exact quotient of the exact
    sum; the program's value is its rounding in binary floating point. *)
Definition price_range_of (l : list Q) : PriceRange :=
  match l with
  | [] => {| range_min := None; range_max := None; range_avg := None |}
  | x :: l' =>
      {| range_min := Some (py_min x l');
         range_max := Some (py_max x l');
         range_avg := Some (py_sum l / inject_Z (Z.of_nat (length l)))%Q |}
  end.

Definition get_summary (self : MenuData) : Summary :=
  let st := fold_left summary_step (items self)
              {| categories := ∅; total_with_prices := 0; price_range := [] |} in
  {| summary_total_items := length (items self);
     summary_items_with_prices := total_with_prices st;
     summary_categories := categories st;
     summary_price_range := price_range_of (price_range st);
     summary_currency := detected_currency self |}.

(** The key an item is counted under: [item.category or "Uncategorized"]. *)
Definition effective_category (item : MenuItem) : str :=
  str_or (category item) (py "Uncategorized").

Definition count_category (k : str) (l : list MenuItem) : nat :=
  length (filter (fun i => effective_category i = k) l).

(** What one item adds to [price_range]: its primary price, when the item
    has a price and the primary price is truthy. *)
Definition summary_price (item : MenuItem) : option Q :=
  if has_any_price item
  then (if truthy (get_primary_price item) then get_primary_price item else None)
  else None.

(** The price values in the words of the specification: the primary price
    (first non-null field) of every item that has at least one price. *)
Definition spec_price_values (md : MenuData) : list Q :=
  omap spec_primary_price (filter (fun i => has_any_price i = true) (items md)).

(** The mathematical sum of a list of prices. *)
Definition sum_list (l : list Q) : Q := fold_right Qplus 0%Q l.

(** ** Sample records *)

Definition raw_named (name : String.string) (p fp : option Q) : raw_item :=
  {| raw_item_name := py name;
     raw_category := None;
     raw_description := None;
     raw_price := p;
     raw_half_plate_price := None;
     raw_full_plate_price := fp;
     raw_small_price := None;
     raw_medium_price := None;
     raw_large_price := None;
     raw_price_display := None |}.

(** [{"item_name": "Water", "price": 0, "full_plate_price": 5}] *)
Definition raw_water : raw_item := raw_named "Water" (Some (0 # 1)) (Some (5 # 1)).

(** [{"item_name": "Soda", "price": 0}] *)
Definition raw_soda : raw_item := raw_named "Soda" (Some (0 # 1)) None.

(** [{"item_name": "Tea", "price": 10}] *)
Definition raw_tea : raw_item := raw_named "Tea" (Some (10 # 1)) None.

(** [{"item_name": "Dal", "price": 99999.99}] *)
Definition raw_dal : raw_item := raw_named "Dal" (Some (9999999 # 100)) None.

(** [{"item_name": "Gold Thali", "price": 150000}] *)
Definition raw_gold_thali : raw_item :=
  raw_named "Gold Thali" (Some (150000 # 1)) None.

(** [{"item_name": "Refund", "price": -1}] *)
Definition raw_refund : raw_item := raw_named "Refund" (Some (-1 # 1)) None.

(** [{"item_name": "Bread"}] *)
Definition raw_bread : raw_item := raw_named "Bread" None None.

(** [{"item_name": "X", "price": 10}] and [{"item_name": "Xi", "price": 10}] *)
Definition raw_x : raw_item := raw_named "X" (Some (10 # 1)) None.
Definition raw_xi : raw_item := raw_named "Xi" (Some (10 # 1)) None.

(** A menu with these items, as [parse_menu] would return it. *)
Definition menu_of (raws : list raw_item) : MenuData :=
  {| items := map item_of_raw raws;
     restaurant_name := Some (py "Unknown");
     total_items := length raws;
     source_file := None;
     extraction_confidence := 1;
     detected_currency := None;
     extraction_method := None |}.

(** ** [llm_parser.LLMMenuParser] *)

(** The dictionary [_call_llm] returns: it has passed the schema, so it is
    exactly a mapping with the key ["items"] (and a non-empty [dict] is
    truthy). *)
Record llm_data := { data_items : list raw_item }.

(** What the parser does to the outside world, in order. *)
Inductive event :=
| EvCall (chunk : str)
| EvSleep (seconds : nat).

Definition is_call (e : event) : bool :=
  match e with EvCall _ => true | EvSleep _ => false end.

Definition sleeps (t : list event) : list nat :=
  omap (fun e => match e with EvSleep n => Some n | EvCall _ => None end) t.

Definition calls (t : list event) : list str :=
  omap (fun e => match e with EvCall c => Some c | EvSleep _ => None end) t.

Section Parser.

(** The state of everything behind the Azure client, and one
    [_call_llm]: request, diagnostic write, [json.loads] and schema
    validation.  It returns schema-valid data or raises an [Exception]. *)
Variable World : Type.
Variable _call_llm : str -> World -> result llm_data * World.

(** [utils.clean_text.normalize_extracted_text], which lives in another
    module: any total function on strings. *)
Variable normalize_extracted_text : str -> str.

Record io := { world : World; trace : list event }.

Definition call (chunk : str) (s : io) : result llm_data * io :=
  let '(r, w) := _call_llm chunk (world s) in
  (r, {| world := w; trace := trace s ++ [EvCall chunk] |}).

(** [time.sleep(seconds)] *)
Definition sleep (seconds : nat) (s : io) : io :=
  {| world := world s; trace := trace s ++ [EvSleep seconds] |}.

Definition max_retries : nat := 3.

(** The [for attempt in range(1, self.max_retries + 1)] loop; falling off
    its end returns [None]. *)
Fixpoint retry_loop (chunk : str) (attempts : list nat) (backoff : nat)
    (s : io) : option llm_data * io :=
  match attempts with
  | [] => (None, s)
  | attempt :: rest =>
      match call chunk s with
      | (Ok data, s1) => (Some data, s1)
      | (Raise _, s1) =>
          if attempt =? max_retries then (None, s1)
          else retry_loop chunk rest (backoff * 2) (sleep backoff s1)
      end
  end.

Definition _call_llm_with_retries (chunk : str) (s : io)
  : option llm_data * io :=
  retry_loop chunk (seq 1 max_retries) 1 s.

(** [all_items.extend(parsed.get("items", []))] under [if parsed:]. *)
Definition extend_parsed (all_items : list raw_item) (parsed : option llm_data)
  : list raw_item :=
  match parsed with
  | Some d => all_items ++ data_items d
  | None => all_items
  end.

(** The first loop of [parse_menu]: [for idx, chunk in enumerate(chunks, 1)]. *)
Fixpoint collect_loop (chunks : list str) (all_items : list raw_item) (s : io)
  : list raw_item * io :=
  match chunks with
  | [] => (all_items, s)
  | chunk :: rest =>
      let '(parsed, s1) := _call_llm_with_retries chunk s in
      collect_loop rest (extend_parsed all_items parsed) s1
  end.

(** The second loop: [for item in all_items], with its [try/except]. *)
Fixpoint validate_loop (all_items : list raw_item) (valid_items : list MenuItem)
  : list MenuItem :=
  match all_items with
  | [] => valid_items
  | item :: rest =>
      match MenuItem_init item with
      | Ok obj =>
          if has_any_price obj
          then validate_loop rest (valid_items ++ [obj])
          else validate_loop rest valid_items
      | Raise _ => validate_loop rest valid_items
      end
  end.

(** What one iteration of the second loop keeps of [item]. *)
Definition retained (item : raw_item) : option MenuItem :=
  match MenuItem_init item with
  | Ok obj => if has_any_price obj then Some obj else None
  | Raise _ => None
  end.

(** [restaurant_name or "Unknown"] *)
Definition name_or_unknown (restaurant_name : option str) : str :=
  str_or restaurant_name (py "Unknown").

Definition parse_menu (text : str) (restaurant_name : option str) (s : io)
  : result MenuData * io :=
  let clean := normalize_extracted_text text in
  let chunks := _chunk_text clean in
  let '(all_items, s1) := collect_loop chunks [] s in
  let valid_items := validate_loop all_items [] in
  (confidence <- py_truediv (length valid_items) (Nat.max 1 (length all_items)) ;;
   MenuData_init (Some (name_or_unknown restaurant_name)) valid_items
     (length valid_items) confidence,
   s1).

End Parser.

Arguments world {World} _.
Arguments trace {World} _.
Arguments call {World} _call_llm chunk s.
Arguments sleep {World} seconds s.
Arguments retry_loop {World} _call_llm chunk attempts backoff s.
Arguments _call_llm_with_retries {World} _call_llm chunk s.
Arguments collect_loop {World} _call_llm chunks all_items s.
Arguments parse_menu {World} _call_llm normalize_extracted_text text restaurant_name s.

(** The retry schedule in the words of the specification: [k] attempts on
    [chunk], with a sleep before each attempt but the first, of 1 time unit
    the first time and twice the previous one after that. *)
Fixpoint backoff_trace (chunk : str) (k : nat) (backoff : nat) : list event :=
  match k with
  | 0 => []
  | S k' => EvSleep backoff :: EvCall chunk :: backoff_trace chunk k' (backoff * 2)
  end.

Definition attempts_trace (chunk : str) (k : nat) : list event :=
  match k with
  | 0 => []
  | S k' => EvCall chunk :: backoff_trace chunk k' 1
  end.

(** Sample clients.  [flaky_client] counts its calls in the world state and
    fails the first two; [dead_client] always fails; [tea_client] returns
    one item whatever it is sent. *)
Definition flaky_client (chunk : str) (n : nat) : result llm_data * nat :=
  (if n <? 2 then Raise ClientError else Ok {| data_items := [raw_tea] |}, S n).

Definition dead_client (chunk : str) (n : nat) : result llm_data * nat :=
  (Raise ClientError, S n).

Definition tea_client (chunk : str) (n : nat) : result llm_data * nat :=
  (Ok {| data_items := [raw_tea] |}, S n).

(** A client that returns an item without any price and a priced one. *)
Definition bread_tea_client (chunk : str) (n : nat) : result llm_data * nat :=
  (Ok {| data_items := [raw_bread; raw_tea] |}, S n).

Definition io0 : io nat := {| world := 0; trace := [] |}.

(** ** Further definitions: strings *)

(** The characters of a string that are not whitespace, in order. *)
Definition non_space (s : str) : str :=
  List.filter (fun c => negb (is_space c)) s.

Definition all_space (s : str) : Prop := Forall (fun c => is_space c = true) s.

Definition space_free (s : str) : Prop := Forall (fun c => is_space c = false) s.

(** A string that does not begin with whitespace, and one that neither
    begins nor ends with it. *)
Definition starts_clean (s : str) : Prop :=
  match s with
  | c :: _ => is_space c = false
  | [] => True
  end.

Definition trimmed (s : str) : Prop := starts_clean s /\ starts_clean (rev s).

(** A word of [s.split()]: non-empty and free of whitespace. *)
Definition word (w : str) : Prop := w <> [] /\ space_free w.

(** [runs s ws]: [ws] are the maximal whitespace-free runs of [s], in
    order.  Each run is preceded by the start of [s] or by whitespace, and
    followed by the end of [s] or by whitespace. *)
Inductive runs : str -> list str -> Prop :=
| runs_none s : all_space s -> runs s []
| runs_one a w b : all_space a -> word w -> all_space b -> runs (a ++ w ++ b) [w]
| runs_more a w c rest ws :
    all_space a -> word w -> is_space c = true -> runs rest ws -> ws <> [] ->
    runs (a ++ w ++ c :: rest) (w :: ws).

(** [str(n)] for a non-negative integer. *)
Fixpoint digits_of_uint (d : Decimal.uint) : str :=
  match d with
  | Decimal.Nil => []
  | Decimal.D0 d => 48%N :: digits_of_uint d
  | Decimal.D1 d => 49%N :: digits_of_uint d
  | Decimal.D2 d => 50%N :: digits_of_uint d
  | Decimal.D3 d => 51%N :: digits_of_uint d
  | Decimal.D4 d => 52%N :: digits_of_uint d
  | Decimal.D5 d => 53%N :: digits_of_uint d
  | Decimal.D6 d => 54%N :: digits_of_uint d
  | Decimal.D7 d => 55%N :: digits_of_uint d
  | Decimal.D8 d => 56%N :: digits_of_uint d
  | Decimal.D9 d => 57%N :: digits_of_uint d
  end.

Definition str_of_N (n : N) : str := digits_of_uint (N.to_uint n).

Definition str_of_nat (n : nat) : str := digits_of_uint (Nat.to_uint n).

(** ** Further definitions: [llm_parser.estimate_tokens] *)

(** [max(1, int(len(text) / 4))]: the quotient by 4 is exact in binary
    floating point and [int] truncates it. *)
Definition estimate_tokens (text : str) : nat := Nat.max 1 (length text / 4).

(** ** Further definitions: [MenuItem.validate_currency] *)

Definition valid_currencies : list str :=
  [ py "$"; [8377%N]; [8364%N]; [163%N]; [165%N];
    py "AUD"; py "USD"; py "INR"; py "EUR"; py "GBP" ].

Definition validate_currency (v : option str) : option str :=
  match v with
  | None => None
  | Some c =>
      if bool_decide (c ∈ valid_currencies) || (length c <=? 3)
      then Some c
      else None
  end.

(** ** Further definitions: display and tabular projection *)

(** Price fields none of which is truthy: each is null or 0. *)
Definition falsy_prices (l : list (option Q)) : Prop :=
  Forall (fun v => truthy v = false) l.

(** A model of the built-in [f"{x:.2f}"] on the exact value of [x]: two
    decimals, ties rounded to even, sign in front. *)
Definition round_half_even (q : Q) : Z :=
  let n := Qnum q in
  let d := Z.pos (Qden q) in
  let f := (n / d)%Z in
  let r := (n mod d)%Z in
  if (2 * r <? d)%Z then f
  else if (d <? 2 * r)%Z then (f + 1)%Z
  else if Z.even f then f else (f + 1)%Z.

Definition two_digits (n : N) : str :=
  str_of_N (n / 10) ++ str_of_N (n mod 10).

Definition format_2f (x : Q) : str :=
  let cents := Z.to_N (round_half_even (Qabs x * (100 # 1))) in
  (if Qltb x 0 then py "-" else [])
    ++ str_of_N (cents / 100) ++ py "." ++ two_digits (cents mod 100).

Section Formatting.

(** The built-in formatting [f"{x:.2f}"] of a price. *)
Variable fmt : Q -> str.

(** [parts.append(f"<label>: {currency_symbol}{v:.2f}")] under
    [if v is not None:]. *)
Definition append_part (parts : list str) (label : String.string)
    (currency_symbol : str) (v : option Q) : list str :=
  match v with
  | Some x => parts ++ [py label ++ py ": " ++ currency_symbol ++ fmt x]
  | None => parts
  end.

Definition get_price_display (self : MenuItem) : str :=
  let currency_symbol := str_or (currency self) (py "$") in
  match price self with
  | Some p => currency_symbol ++ fmt p
  | None =>
      let parts := [] in
      let parts := append_part parts "Half" currency_symbol (half_plate_price self) in
      let parts := append_part parts "Full" currency_symbol (full_plate_price self) in
      let parts := append_part parts "Small" currency_symbol (small_price self) in
      let parts := append_part parts "Medium" currency_symbol (medium_price self) in
      let parts := append_part parts "Large" currency_symbol (large_price self) in
      match parts with
      | [] => py "No price"
      | _ :: _ => join (py " | ") parts
      end
  end.

(** One row of [to_dataframe], its fields in [column_order]. *)
Record row := {
  row_item_name : str;
  row_category : option str;
  row_description : option str;
  row_price_display : str;
  row_price : option Q;
  row_half_plate_price : option Q;
  row_full_plate_price : option Q;
  row_small_price : option Q;
  row_medium_price : option Q;
  row_large_price : option Q;
  row_currency : option str;
  row_spice_level : option str;
  row_dietary_tags : option str
}.

(** [a or b] on [Optional[str]] operands. *)
Definition opt_str_or (a b : option str) : option str :=
  match a with
  | Some (c :: s) => a
  | _ => b
  end.

Definition row_of (self : MenuData) (item : MenuItem) : row :=
  {| row_item_name := item_name item;
     row_category := category item;
     row_description := description item;
     row_price_display := get_price_display item;
     row_price := price item;
     row_half_plate_price := half_plate_price item;
     row_full_plate_price := full_plate_price item;
     row_small_price := small_price item;
     row_medium_price := medium_price item;
     row_large_price := large_price item;
     row_currency := opt_str_or (currency item) (detected_currency self);
     row_spice_level := spice_level item;
     row_dietary_tags :=
       match dietary_tags item with
       | [] => None
       | _ :: _ => Some (join (py ", ") (dietary_tags item))
       end |}.

(** The keys of the row dictionaries, in the order they are written, and
    [column_order]. *)
Definition row_keys : list str :=
  [ py "item_name"; py "category"; py "description"; py "price";
    py "half_plate_price"; py "full_plate_price"; py "small_price";
    py "medium_price"; py "large_price"; py "currency"; py "price_display";
    py "spice_level"; py "dietary_tags" ].

Definition column_order : list str :=
  [ py "item_name"; py "category"; py "description"; py "price_display";
    py "price"; py "half_plate_price"; py "full_plate_price"; py "small_price";
    py "medium_price"; py "large_price"; py "currency"; py "spice_level";
    py "dietary_tags" ].

(** A data frame: its column labels and its rows. *)
Record DataFrame := { df_columns : list str; df_rows : list row }.

Definition to_dataframe (self : MenuData) : DataFrame :=
  match items self with
  | [] => {| df_columns := []; df_rows := [] |}
  | _ :: _ =>
      let data := map (row_of self) (items self) in
      let available_columns :=
        List.filter (fun col => bool_decide (col ∈ row_keys)) column_order in
      {| df_columns := available_columns; df_rows := data |}
  end.

End Formatting.

(** [sum(categories.values())] *)
Definition histogram_total (m : gmap str nat) : nat :=
  map_fold (fun _ v acc => v + acc) 0 m.

(** ** Further definitions: [image_extractor.ImageExtractor] *)

(** One recognised line, [line[1][0]] and [line[1][1]]. *)
Record ocr_line := { line_text : str; line_confidence : Q }.

(** What [ocr.ocr(image, cls=True)] returns: [None], or a list with an
    entry per image, each [None] or a list of lines. *)
Definition ocr_result := option (list (option (list ocr_line))).

(** The [for line in result[0]] loop.  The threshold [0.6] is the double
    just below 6/10, and no double lies between the two, so on doubles
    [confidence > 0.6] agrees with the comparison of exact values. *)
Fixpoint ocr_loop (lines : list ocr_line) (extracted_lines : list str)
  : list str :=
  match lines with
  | [] => extracted_lines
  | line :: rest =>
      if Qltb (6 # 10) (line_confidence line)
      then ocr_loop rest (extracted_lines ++ [line_text line])
      else ocr_loop rest extracted_lines
  end.

(** [_run_ocr] after the engine has returned [result]. *)
Definition ocr_text (result : ocr_result) : str :=
  match result with
  | Some (Some (line :: lines) :: _) =>
      join [10%N] (ocr_loop (line :: lines) [])
  | _ => []
  end.

Record image := { image_mode : str; image_size : nat * nat }.

(** The attributes of [Path(image_path)] that [extract_text] reads. *)
Record path := {
  path_exists : bool;
  path_suffix : str;
  path_name : str
}.

(** The dictionary [extract_text] returns; [image_size], [char_count] and
    [error] are keys of one of its two shapes only. *)
Record extraction := {
  ex_text : str;
  ex_source_file : str;
  ex_extraction_method : str;
  ex_image_size : option str;
  ex_char_count : option nat;
  ex_success : bool;
  ex_error : option str
}.

Inductive extract_outcome :=
| Extracted (d : extraction)
| RaisedFileNotFoundError
| RaisedValueError.

Definition supported_formats : list str :=
  [ py ".jpg"; py ".jpeg"; py ".png"; py ".bmp"; py ".tiff"; py ".tif" ].

Section ImageExtractor.

(** The built-in [str.lower], and the libraries behind the extractor:
    [Image.open], [image.convert('RGB')] and the OCR engine, each of which
    returns a value or raises an exception with a message. *)
Variable lower : str -> str.
Variable image_open : path -> str + image.
Variable convert_rgb : image -> str + image.
Variable ocr : image -> str + ocr_result.

(** [_run_ocr] *)
Definition _run_ocr (img : image) : str + str :=
  match ocr img with
  | inl e => inl e
  | inr result => inr (ocr_text result)
  end.

(** The body of the [try] block of [extract_text]. *)
Definition extract_try (image_path : path) : str + extraction :=
  match image_open image_path with
  | inl e => inl e
  | inr img =>
      match (if bool_decide (image_mode img = py "RGB") then inr img
             else convert_rgb img) with
      | inl e => inl e
      | inr img' =>
          match _run_ocr img' with
          | inl e => inl e
          | inr text =>
              inr {| ex_text := text;
                     ex_source_file := path_name image_path;
                     ex_extraction_method := py "ocr";
                     ex_image_size :=
                       Some (str_of_nat (fst (image_size img')) ++ py "x"
                             ++ str_of_nat (snd (image_size img')));
                     ex_char_count := Some (length text);
                     ex_success := 0 <? length text;
                     ex_error := None |}
          end
      end
  end.

Definition extract_text (image_path : path) : extract_outcome :=
  if negb (path_exists image_path) then RaisedFileNotFoundError
  else if negb (bool_decide (lower (path_suffix image_path) ∈ supported_formats))
  then RaisedValueError
  else match extract_try image_path with
       | inr d => Extracted d
       | inl e =>
           Extracted {| ex_text := [];
                        ex_source_file := path_name image_path;
                        ex_extraction_method := py "ocr";
                        ex_image_size := None;
                        ex_char_count := None;
                        ex_success := false;
                        ex_error := Some e |}
       end.

End ImageExtractor.

(** Sample inputs of the extractor: an ASCII-only [lower], a photo whose
    suffix is in capitals, a readable RGB image and an unreadable one, and
    engines that find one faint line or two clear ones. *)
Definition ascii_lower (v : str) : str :=
  map (fun c => if ((65 <=? c) && (c <=? 90))%N then (c + 32)%N else c) v.

Definition menu_photo : path :=
  {| path_exists := true; path_suffix := py ".JPG"; path_name := py "menu_photo.JPG" |}.

Definition open_rgb (p : path) : str + image :=
  inr {| image_mode := py "RGB"; image_size := (800, 600) |}.

Definition open_broken (p : path) : str + image :=
  inl (py "cannot identify image file").

Definition convert_same_size (img : image) : str + image :=
  inr {| image_mode := py "RGB"; image_size := image_size img |}.

Definition faint_ocr (img : image) : str + ocr_result :=
  inr (Some [Some [ {| line_text := py "smudge"; line_confidence := 1 # 2 |} ]]).

Definition clear_ocr (img : image) : str + ocr_result :=
  inr (Some [Some [ {| line_text := py "Tea 10"; line_confidence := 9 # 10 |};
                    {| line_text := py "Dal 20"; line_confidence := 7 # 10 |} ]]).

(** ** Further definitions: [menu_assets.menu_etl_asset] *)

(** The attributes of an entry of the input folder that the asset reads. *)
Record dir_entry := {
  entry_suffix : str;
  entry_name : str;
  entry_stem : str
}.

(** What the asset reads of the dictionary [extractor.extract] returns:
    the truth value of [extraction.get("success")] and
    [extraction['text']]. *)
Record extracted := { extracted_success : bool; extracted_text : str }.

Definition asset_formats : list str :=
  [ py ".pdf"; py ".jpg"; py ".jpeg"; py ".png" ].

Inductive asset_outcome :=
| AssetCompleted (message : str) (written : list (str * DataFrame))
| AssetFileNotFoundError
| AssetValueError
| AssetRaised (e : exn).

Section Asset.

Variable World : Type.
Variable llm : str -> World -> result llm_data * World.
Variable normalize : str -> str.
Variable fmt : Q -> str.
Variable lower : str -> str.

(** [UniversalExtractor.extract], which lives in another module: a call
    that returns its dictionary. *)
Variable universal_extract : dir_entry -> extracted.

(** The [for file in sorted(input_dir.iterdir())] loop.  [written] records
    the calls of [df.to_csv], each with the name of the file in the output
    folder. *)
Fixpoint asset_loop (files : list dir_entry) (results : list str)
    (written : list (str * DataFrame)) (s : io World)
  : result (list str * list (str * DataFrame)) * io World :=
  match files with
  | [] => (Ok (results, written), s)
  | file :: rest =>
      if negb (bool_decide (lower (entry_suffix file) ∈ asset_formats))
      then asset_loop rest results written s
      else
        let extraction := universal_extract file in
        if negb (extracted_success extraction)
        then asset_loop rest results written s
        else
          match parse_menu llm normalize (extracted_text extraction)
                  (Some (entry_stem file)) s with
          | (Ok parsed, s1) =>
              let df := to_dataframe fmt parsed in
              let csv_path := entry_stem file ++ py ".csv" in
              asset_loop rest (results ++ [csv_path])
                (written ++ [(csv_path, df)]) s1
          | (Raise e, s1) => (Raise e, s1)
          end
  end.

(** [menu_etl_asset], given whether the input folder exists, whether the
    [AZURE_OPENAI_*] variables are all set, and the sorted entries of the
    folder. *)
Definition menu_etl_asset (input_exists env_set : bool)
    (files : list dir_entry) (s : io World) : asset_outcome * io World :=
  if negb input_exists then (AssetFileNotFoundError, s)
  else if negb env_set then (AssetValueError, s)
  else match asset_loop files [] [] s with
       | (Ok (results, written), s1) =>
           (AssetCompleted
              (py "Completed ETL. Generated " ++ str_of_nat (length results)
               ++ py " file(s).")
              written, s1)
       | (Raise e, s1) => (AssetRaised e, s1)
       end.

(** An entry the loop does not skip. *)
Definition processed (file : dir_entry) : bool :=
  bool_decide (lower (entry_suffix file) ∈ asset_formats)
  && extracted_success (universal_extract file).

End Asset.

Arguments asset_loop {World} llm normalize fmt lower universal_extract
  files results written s.
Arguments menu_etl_asset {World} llm normalize fmt lower universal_extract
  input_exists env_set files s.

(** Sample folder: a menu, a note that is not a menu format, and a scan
    from which no text could be extracted. *)
Definition sample_entries : list dir_entry :=
  [ {| entry_suffix := py ".PDF"; entry_name := py "cafe.PDF"; entry_stem := py "cafe" |};
    {| entry_suffix := py ".txt"; entry_name := py "notes.txt"; entry_stem := py "notes" |};
    {| entry_suffix := py ".png"; entry_name := py "scan.png"; entry_stem := py "scan" |} ].

Definition sample_extract (file : dir_entry) : extracted :=
  {| extracted_success := bool_decide (entry_stem file = py "cafe");
     extracted_text := py "Tea 10" |}.

(** * Properties *)

(** ** Strings *)

Lemma lstrip_length s : length (lstrip s) <= length s.
Proof.
  induction s as [|c s IH]; simpl; [lia|].
  destruct (is_space c); simpl; lia.
Qed.

Lemma strip_length s : length (strip s) <= length s.
Proof.
  unfold strip, rstrip. rewrite length_rev.
  etransitivity; [apply lstrip_length|].
  rewrite length_rev. apply lstrip_length.
Qed.

Lemma slice_length s a b : b <= length s -> length (slice s a b) = b - a.
Proof.
  intros Hb. unfold slice. rewrite length_take, length_drop. lia.
Qed.

(** ** The chunker *)

Lemma max_chars_pos : 0 < max_chars.
Proof. unfold max_chars. lia. Qed.

Lemma chunk_loop_lt text start chunks :
  start < length text ->
  chunk_loop text start chunks =
  chunk_loop text (Nat.min (start + max_chars) (length text))
    (chunks ++ [strip (slice text start (Nat.min (start + max_chars) (length text)))]).
Proof.
  intros H. rewrite chunk_loop_equation_1.
  destruct (lt_dec start (length text)); [reflexivity | contradiction].
Qed.

Lemma chunk_loop_ge text start chunks :
  length text <= start -> chunk_loop text start chunks = chunks.
Proof.
  intros H. rewrite chunk_loop_equation_1.
  destruct (lt_dec start (length text)); [lia | reflexivity].
Qed.

Lemma segment_loop_lt text start segs :
  start < length text ->
  segment_loop text start segs =
  segment_loop text (Nat.min (start + max_chars) (length text))
    (segs ++ [slice text start (Nat.min (start + max_chars) (length text))]).
Proof.
  intros H. rewrite segment_loop_equation_1.
  destruct (lt_dec start (length text)); [reflexivity | contradiction].
Qed.

Lemma segment_loop_ge text start segs :
  length text <= start -> segment_loop text start segs = segs.
Proof.
  intros H. rewrite segment_loop_equation_1.
  destruct (lt_dec start (length text)); [lia | reflexivity].
Qed.

(** Induction along the iterations of the [while] loop. *)
Lemma loop_ind (text : str) (P : nat -> Prop) :
  (forall start, length text <= start -> P start) ->
  (forall start, start < length text ->
     P (Nat.min (start + max_chars) (length text)) -> P start) ->
  forall start, P start.
Proof.
  intros Hexit Hstep start.
  remember (length text - start) as n eqn:Hn.
  revert start Hn. induction n as [n IH] using lt_wf_ind. intros start Hn.
  destruct (lt_dec start (length text)) as [Hlt|Hge].
  - apply Hstep; [exact Hlt|].
    pose proof max_chars_pos.
    apply (IH (length text - Nat.min (start + max_chars) (length text))); lia.
  - apply Hexit. lia.
Qed.

Lemma segment_loop_acc text start segs :
  segment_loop text start segs = segs ++ segment_loop text start [].
Proof.
  revert segs. pattern start. apply (loop_ind text); clear start.
  - intros start Hge segs. rewrite !segment_loop_ge by exact Hge.
    symmetry. apply app_nil_r.
  - intros start Hlt IH segs.
    rewrite (segment_loop_lt text start segs), (segment_loop_lt text start []) by exact Hlt.
    rewrite IH. rewrite (IH ([] ++ _)). rewrite <- app_assoc. reflexivity.
Qed.

Lemma segment_loop_cons text start :
  start < length text ->
  segment_loop text start [] =
  slice text start (Nat.min (start + max_chars) (length text))
    :: segment_loop text (Nat.min (start + max_chars) (length text)) [].
Proof.
  intros Hlt. rewrite segment_loop_lt by exact Hlt.
  rewrite segment_loop_acc. reflexivity.
Qed.

Lemma chunk_loop_segments text start chunks :
  chunk_loop text start chunks = chunks ++ map strip (segment_loop text start []).
Proof.
  revert chunks. pattern start. apply (loop_ind text); clear start.
  - intros start Hge chunks.
    rewrite chunk_loop_ge, segment_loop_ge by exact Hge.
    symmetry. apply app_nil_r.
  - intros start Hlt IH chunks.
    rewrite chunk_loop_lt, segment_loop_cons by exact Hlt.
    rewrite IH, <- app_assoc. reflexivity.
Qed.

Lemma segment_loop_concat text start :
  concat (segment_loop text start []) = drop start text.
Proof.
  pattern start. apply (loop_ind text); clear start.
  - intros start Hge. rewrite segment_loop_ge by exact Hge.
    symmetry. apply drop_ge. exact Hge.
  - intros start Hlt IH.
    rewrite segment_loop_cons by exact Hlt. simpl. rewrite IH.
    unfold slice.
    set (e := Nat.min (start + max_chars) (length text)).
    replace (drop e text) with (drop (e - start) (drop start text)).
    + apply take_drop.
    + rewrite drop_drop. f_equal. subst e. lia.
Qed.

Lemma segment_loop_bound text start :
  Forall (fun s => length s <= max_chars) (segment_loop text start []).
Proof.
  pattern start. apply (loop_ind text); clear start.
  - intros start Hge. rewrite segment_loop_ge by exact Hge. constructor.
  - intros start Hlt IH.
    rewrite segment_loop_cons by exact Hlt. constructor; [|exact IH].
    rewrite slice_length by lia. lia.
Qed.

Lemma ceil_div_step a b : 0 < b -> ceil_div (a + b) b = S (ceil_div a b).
Proof.
  intros Hb. unfold ceil_div.
  replace (a + b + b - 1) with ((a + b - 1) + 1 * b) by lia.
  rewrite Nat.div_add by lia. lia.
Qed.

Lemma ceil_div_small a b : 0 < a -> a <= b -> ceil_div a b = 1.
Proof.
  intros Ha Hb. unfold ceil_div.
  replace (a + b - 1) with ((a - 1) + 1 * b) by lia.
  rewrite Nat.div_add by lia. rewrite Nat.div_small by lia. reflexivity.
Qed.

Lemma ceil_div_0 b : 0 < b -> ceil_div 0 b = 0.
Proof.
  intros Hb. unfold ceil_div. apply Nat.div_small. lia.
Qed.

Lemma segment_loop_count text start :
  length (segment_loop text start []) = ceil_div (length text - start) max_chars.
Proof.
  pose proof max_chars_pos as Hpos.
  pattern start. apply (loop_ind text); clear start.
  - intros start Hge. rewrite segment_loop_ge by exact Hge.
    replace (length text - start) with 0 by lia.
    rewrite ceil_div_0 by exact Hpos. reflexivity.
  - intros start Hlt IH.
    rewrite segment_loop_cons by exact Hlt. cbn [length]. rewrite IH.
    destruct (le_dec (start + max_chars) (length text)) as [Hle|Hgt].
    + rewrite Nat.min_l by exact Hle.
      replace (length text - start)
        with ((length text - (start + max_chars)) + max_chars) by lia.
      rewrite ceil_div_step by exact Hpos. reflexivity.
    + rewrite Nat.min_r by lia.
      replace (length text - length text) with 0 by lia.
      rewrite ceil_div_0 by exact Hpos.
      rewrite ceil_div_small by lia. reflexivity.
Qed.

Lemma chunk_text_long text :
  max_chars < length text ->
  _chunk_text text = map strip (segment_loop text 0 []).
Proof.
  intros H. unfold _chunk_text.
  destruct (Nat.leb_spec (length text) max_chars) as [Hle|_]; [lia|].
  apply (chunk_loop_segments text 0 []).
Qed.

Lemma chunk_text_short text :
  length text <= max_chars -> _chunk_text text = [text].
Proof.
  intros H. unfold _chunk_text.
  destruct (Nat.leb_spec (length text) max_chars) as [_|Hlt]; [reflexivity|lia].
Qed.

Lemma untrimmed_segments_long text :
  max_chars < length text -> untrimmed_segments text = segment_loop text 0 [].
Proof.
  intros H. unfold untrimmed_segments.
  destruct (Nat.leb_spec (length text) max_chars) as [Hle|_]; [lia|reflexivity].
Qed.

Lemma untrimmed_segments_short text :
  length text <= max_chars -> untrimmed_segments text = [text].
Proof.
  intros H. unfold untrimmed_segments.
  destruct (Nat.leb_spec (length text) max_chars) as [_|Hlt]; [reflexivity|lia].
Qed.

(** C4 (as amended).  A text longer than [max_chars] is cut into
    [ceil(len(T) / max_chars)] chunks, none longer than [max_chars]; a text
    of 5000 characters gives exactly three chunks, which are the trimmed
    forms of its consecutive segments of 2000, 2000 and 1000 characters. *)
Theorem chunk_text_long_count_bound (T : str) :
  max_chars < length T ->
  length (_chunk_text T) = ceil_div (length T) max_chars
  /\ Forall (fun c => length c <= max_chars) (_chunk_text T)
  /\ (length T = 5000 ->
      exists s1 s2 s3,
        T = s1 ++ s2 ++ s3
        /\ length s1 = 2000 /\ length s2 = 2000 /\ length s3 = 1000
        /\ _chunk_text T = [strip s1; strip s2; strip s3]).
Proof.
  intros Hlong. rewrite chunk_text_long by exact Hlong.
  split; [|split].
  - rewrite length_map, segment_loop_count. f_equal. lia.
  - apply Forall_map.
    eapply Forall_impl; [apply segment_loop_bound|].
    intros s Hs. simpl. etransitivity; [apply strip_length|exact Hs].
  - intros H5000.
    assert (Hseg : segment_loop T 0 [] =
                   [slice T 0 2000; slice T 2000 4000; slice T 4000 5000]).
    { rewrite segment_loop_cons by lia.
      replace (Nat.min (0 + max_chars) (length T)) with 2000
        by (unfold max_chars; lia).
      rewrite segment_loop_cons by lia.
      replace (Nat.min (2000 + max_chars) (length T)) with 4000
        by (unfold max_chars; lia).
      rewrite segment_loop_cons by lia.
      replace (Nat.min (4000 + max_chars) (length T)) with 5000
        by (unfold max_chars; lia).
      rewrite segment_loop_ge by lia. reflexivity. }
    exists (slice T 0 2000), (slice T 2000 4000), (slice T 4000 5000).
    rewrite !slice_length by lia.
    split; [|split; [lia|split; [lia|split; [lia|]]]].
    + pose proof (segment_loop_concat T 0) as Hc.
      rewrite Hseg in Hc. simpl in Hc. rewrite app_nil_r in Hc.
      symmetry. exact Hc.
    + rewrite Hseg. reflexivity.
Qed.

Lemma chunk_text_long_count_bound_witness :
  max_chars < length (repeat 97%N 5000)
  /\ length (_chunk_text (repeat 97%N 5000)) = 3
  /\ map length (_chunk_text (repeat 97%N 5000)) = [2000; 2000; 1000].
Proof.
  assert (Hlong : max_chars < length (repeat 97%N 5000)).
  { apply Nat.ltb_lt. vm_compute. reflexivity. }
  destruct (chunk_text_long_count_bound (repeat 97%N 5000) Hlong)
    as (Hcount & _ & _).
  split; [exact Hlong|]. split.
  - rewrite Hcount. vm_compute. reflexivity.
  - vm_compute. reflexivity.
Defined.

(** C4 as stated fails: the chunks are trimmed, so a 5000-character text
    need not give chunks of 2000, 2000 and 1000 characters.  Five thousand
    spaces give three empty chunks. *)
Lemma chunk_sizes_of_5000_spaces :
  length (repeat 32%N 5000) = 5000
  /\ map length (_chunk_text (repeat 32%N 5000)) = [0; 0; 0]
  /\ map length (_chunk_text (repeat 32%N 5000)) <> [2000; 2000; 1000].
Proof.
  split; [vm_compute; reflexivity|].
  assert (H : map length (_chunk_text (repeat 32%N 5000)) = [0; 0; 0])
    by (vm_compute; reflexivity).
  split; [exact H|]. rewrite H. discriminate.
Qed.

(** C5.  The chunker drops and duplicates nothing: the untrimmed segments it
    cuts concatenate to the text, and the chunks it returns are these
    segments (each one trimmed when the text is longer than [max_chars]). *)
Theorem chunk_text_reconstructs (T : str) :
  concat (untrimmed_segments T) = T
  /\ _chunk_text T =
     (if length T <=? max_chars then untrimmed_segments T
      else map strip (untrimmed_segments T)).
Proof.
  destruct (Nat.leb_spec (length T) max_chars) as [Hle|Hlt].
  - rewrite untrimmed_segments_short, chunk_text_short by exact Hle.
    split; [|reflexivity]. simpl. apply app_nil_r.
  - rewrite untrimmed_segments_long, chunk_text_long by exact Hlt.
    split; [|reflexivity]. apply (segment_loop_concat T 0).
Qed.

(** C6 (as amended).  A text of at most [max_chars] characters comes back as
    the single chunk [T] itself, untrimmed: it is the trimmed text exactly
    when [T] has no whitespace at either end.  The empty text gives one
    empty chunk. *)
Theorem chunk_text_short_single (T : str) :
  length T <= max_chars ->
  _chunk_text T = [T]
  /\ (_chunk_text T = [strip T] <-> strip T = T)
  /\ _chunk_text [] = [[]].
Proof.
  intros Hle. rewrite chunk_text_short by exact Hle.
  split; [reflexivity|]. split; [|reflexivity].
  split; intros H; [injection H; auto | rewrite H; reflexivity].
Qed.

Lemma chunk_text_short_single_witness :
  length (py "Tea 10") <= max_chars
  /\ _chunk_text (py "Tea 10") = [py "Tea 10"].
Proof.
  assert (Hle : length (py "Tea 10") <= max_chars).
  { apply Nat.leb_le. vm_compute. reflexivity. }
  split; [exact Hle|].
  exact (proj1 (chunk_text_short_single (py "Tea 10") Hle)).
Defined.

(** C6 as stated fails: on the short path the text is returned as it is,
    without trimming. *)
Lemma chunk_text_short_not_trimmed :
  length (py " a") <= max_chars
  /\ _chunk_text (py " a") = [py " a"]
  /\ _chunk_text (py " a") <> [strip (py " a")].
Proof.
  split; [apply Nat.leb_le; vm_compute; reflexivity|].
  split; [vm_compute; reflexivity|].
  vm_compute. discriminate.
Qed.

(** ** Record validation *)

Lemma price_field_None field : price_field field None = Ok None.
Proof. reflexivity. Qed.

Lemma price_field_ok field v :
  price_ok v -> price_field field v = Ok v.
Proof.
  destruct v as [x|]; [|reflexivity]. intros [H0 H1].
  apply Qle_bool_iff in H0. apply Qle_bool_iff in H1.
  unfold price_field, check_ge0. rewrite H0. simpl.
  unfold Qltb. rewrite H0, H1. reflexivity.
Qed.

Lemma price_field_inv field v v' :
  price_field field v = Ok v' -> v' = v /\ price_ok v.
Proof.
  destruct v as [x|]; [|intros [= <-]; split; [reflexivity|exact I]].
  unfold price_field, check_ge0.
  destruct (Qle_bool 0 x) eqn:H0; [|discriminate]. simpl.
  unfold Qltb. rewrite H0. simpl.
  destruct (Qle_bool x (100000 # 1)) eqn:H1; [|discriminate]. simpl.
  intros [= <-]. split; [reflexivity|].
  split; apply Qle_bool_iff; assumption.
Qed.

Lemma price_field_bad field v :
  ~ price_ok v -> exists e, price_field field v = Raise e.
Proof.
  intros Hbad. destruct (price_field field v) as [v'|e] eqn:E; [|eauto].
  apply price_field_inv in E. tauto.
Qed.

Lemma out_of_bounds_not_ok x :
  (x < 0 \/ 100000 # 1 < x)%Q -> ~ price_ok (Some x).
Proof.
  intros [H|H] [H0 H1].
  - apply (Qlt_not_le _ _ H). exact H0.
  - apply (Qlt_not_le _ _ H). exact H1.
Qed.

(** The item [MenuItem_init] builds when every check passes. *)
Lemma MenuItem_init_ok r :
  2 <= length (raw_item_name r) ->
  Forall price_ok (raw_price_fields r) ->
  MenuItem_init r = Ok (item_of_raw r).
Proof.
  intros Hlen Hp. unfold raw_price_fields in Hp.
  repeat match goal with
         | H : Forall _ (_ :: _) |- _ => apply Forall_cons in H; destruct H
         end.
  unfold MenuItem_init, check_min_length.
  apply Nat.leb_le in Hlen. rewrite Hlen. cbn [bind].
  repeat (rewrite price_field_ok by assumption; cbn [bind]).
  reflexivity.
Qed.

Lemma MenuItem_init_inv r m :
  MenuItem_init r = Ok m ->
  2 <= length (raw_item_name r)
  /\ Forall price_ok (raw_price_fields r)
  /\ m = item_of_raw r.
Proof.
  unfold MenuItem_init, check_min_length.
  destruct (2 <=? length (raw_item_name r)) eqn:Hlen; [|discriminate].
  cbn [bind].
  destruct (price_field "price" (raw_price r)) as [p|] eqn:E1; [|discriminate].
  destruct (price_field "half_plate_price" (raw_half_plate_price r))
    as [hp|] eqn:E2; [|discriminate].
  destruct (price_field "full_plate_price" (raw_full_plate_price r))
    as [fp|] eqn:E3; [|discriminate].
  destruct (price_field "small_price" (raw_small_price r))
    as [sp|] eqn:E4; [|discriminate].
  destruct (price_field "medium_price" (raw_medium_price r))
    as [mp|] eqn:E5; [|discriminate].
  destruct (price_field "large_price" (raw_large_price r))
    as [lp|] eqn:E6; [|discriminate].
  cbn [bind]. intros [= <-].
  apply price_field_inv in E1, E2, E3, E4, E5, E6.
  destruct E1 as [-> ?], E2 as [-> ?], E3 as [-> ?],
           E4 as [-> ?], E5 as [-> ?], E6 as [-> ?].
  split; [apply Nat.leb_le; exact Hlen|].
  split; [|reflexivity].
  unfold raw_price_fields. repeat constructor; assumption.
Qed.

Lemma MenuItem_init_short_name r :
  length (raw_item_name r) < 2 ->
  MenuItem_init r = Raise (ValidationError "item_name" "string_too_short").
Proof.
  intros Hlen. unfold MenuItem_init, check_min_length.
  destruct (Nat.leb_spec 2 (length (raw_item_name r))); [lia|reflexivity].
Qed.

Lemma MenuItem_init_bad_price r :
  ~ Forall price_ok (raw_price_fields r) -> exists e, MenuItem_init r = Raise e.
Proof.
  intros Hbad. destruct (MenuItem_init r) as [m|e] eqn:E; [|eauto].
  apply MenuItem_init_inv in E. tauto.
Qed.

Lemma price_fields_item_of_raw r :
  price_fields (item_of_raw r) = raw_price_fields r.
Proof. reflexivity. Qed.

Lemma has_any_price_spec m :
  has_any_price m = false <-> Forall (fun v => v = None) (price_fields m).
Proof.
  unfold has_any_price, price_fields, any. simpl.
  destruct (price m), (half_plate_price m), (full_plate_price m),
    (small_price m), (medium_price m), (large_price m); simpl;
    split; intros H; try discriminate; try reflexivity;
    repeat constructor;
    repeat match goal with
           | H : Forall _ (_ :: _) |- _ => apply Forall_cons in H; destruct H
           end; discriminate.
Qed.

(** ** The validation loop of [parse_menu] *)

Lemma validate_loop_acc all_items valid_items :
  validate_loop all_items valid_items =
  valid_items ++ omap retained all_items.
Proof.
  revert valid_items.
  induction all_items as [|item rest IH]; intros valid_items; simpl.
  - symmetry. apply app_nil_r.
  - unfold retained at 1.
    destruct (MenuItem_init item) as [obj|e]; [|apply IH].
    destruct (has_any_price obj); [|apply IH].
    rewrite IH, <- app_assoc. reflexivity.
Qed.

Lemma validate_loop_omap all_items :
  validate_loop all_items [] = omap retained all_items.
Proof. apply validate_loop_acc. Qed.

Lemma validate_loop_drop l1 r l2 valid_items :
  retained r = None ->
  validate_loop (l1 ++ r :: l2) valid_items = validate_loop (l1 ++ l2) valid_items.
Proof.
  intros Hr. rewrite !validate_loop_acc. f_equal.
  rewrite !omap_app. simpl. rewrite Hr. reflexivity.
Qed.

Lemma omap_length_le {A B} (f : A -> option B) l :
  length (omap f l) <= length l.
Proof.
  induction l as [|a l IH]; csimpl; [lia|].
  destruct (f a); csimpl; lia.
Qed.

Lemma retained_has_price r m : retained r = Some m -> has_any_price m = true.
Proof.
  unfold retained. destruct (MenuItem_init r) as [obj|]; [|discriminate].
  destruct (has_any_price obj) eqn:E; [|discriminate].
  intros [= <-]. exact E.
Qed.

Lemma retained_rejected r e : MenuItem_init r = Raise e -> retained r = None.
Proof. unfold retained. intros ->. reflexivity. Qed.

(** ** Claims about [MenuItem] *)

(** C2.  [get_primary_price] is not the first non-null price field when a
    populated field holds 0: the [or] chain skips a zero.  The validated
    item [Water] with [price = 0] and [full_plate_price = 5] has first
    non-null price 0 and primary price 5, and [Soda], whose only price is
    0, has a price and no primary price. *)
Theorem get_primary_price_skips_zero :
  MenuItem_init raw_water = Ok (item_of_raw raw_water)
  /\ spec_primary_price (item_of_raw raw_water) = Some (0 # 1)
  /\ get_primary_price (item_of_raw raw_water) = Some (5 # 1)
  /\ MenuItem_init raw_soda = Ok (item_of_raw raw_soda)
  /\ has_any_price (item_of_raw raw_soda) = true
  /\ spec_primary_price (item_of_raw raw_soda) = Some (0 # 1)
  /\ get_primary_price (item_of_raw raw_soda) = None.
Proof. vm_compute. repeat split. Qed.

(** Away from zero prices the [or] chain is the first non-null field. *)
Lemma py_or_nonzero a b :
  nonzero a -> py_or a b = match a with Some _ => a | None => b end.
Proof.
  unfold py_or, truthy. destruct a as [x|]; [|reflexivity].
  simpl. intros Hx. destruct (Qeq_bool x 0) eqn:E; [|reflexivity].
  apply Qeq_bool_iff in E. contradiction.
Qed.

Lemma get_primary_price_nonzero m :
  Forall nonzero (price_fields m) ->
  get_primary_price m = spec_primary_price m.
Proof.
  unfold price_fields. intros H.
  repeat match goal with
         | H : Forall _ (_ :: _) |- _ => apply Forall_cons in H; destruct H
         end.
  unfold get_primary_price, spec_primary_price.
  rewrite !py_or_nonzero by assumption. simpl.
  destruct (price m), (full_plate_price m), (half_plate_price m),
    (large_price m), (medium_price m), (small_price m); reflexivity.
Qed.

(** C7.  Every price field of a validated item is absent or within
    [0, 100000]; a record with a price field above 100000 or below 0 is
    rejected and the validation loop passes over it; a record with a name
    of two or more characters and all prices within bounds is accepted with
    its prices unchanged.  99999.99 is within bounds and 150000 is not. *)
Theorem validated_prices_within_bounds :
  (forall r m, MenuItem_init r = Ok m -> Forall price_ok (price_fields m))
  /\ (forall r x,
        Some x ∈ raw_price_fields r -> (x < 0 \/ 100000 # 1 < x)%Q ->
        (exists e, MenuItem_init r = Raise e)
        /\ forall l1 l2 valid_items,
             validate_loop (l1 ++ r :: l2) valid_items =
             validate_loop (l1 ++ l2) valid_items)
  /\ (forall r,
        2 <= length (raw_item_name r) ->
        Forall price_ok (raw_price_fields r) ->
        exists m, MenuItem_init r = Ok m /\ price_fields m = raw_price_fields r)
  /\ price_ok (Some (9999999 # 100))
  /\ (100000 # 1 < 150000 # 1)%Q.
Proof.
  split; [|split; [|split; [|split]]].
  - intros r m H. apply MenuItem_init_inv in H as (_ & Hp & ->).
    rewrite price_fields_item_of_raw. exact Hp.
  - intros r x Hin Hx.
    assert (Hbad : ~ Forall price_ok (raw_price_fields r)).
    { intros HF. rewrite Forall_forall in HF.
      apply (out_of_bounds_not_ok x Hx). apply HF. exact Hin. }
    destruct (MenuItem_init_bad_price r Hbad) as [e He].
    split; [eauto|]. intros l1 l2 valid_items.
    apply validate_loop_drop. eapply retained_rejected. exact He.
  - intros r Hlen Hp. exists (item_of_raw r).
    split; [apply MenuItem_init_ok; assumption | reflexivity].
  - split; unfold Qle; simpl; lia.
  - reflexivity.
Qed.

Lemma validated_prices_within_bounds_witness :
  (exists e, MenuItem_init raw_gold_thali = Raise e)
  /\ (exists e, MenuItem_init raw_refund = Raise e)
  /\ validate_loop [raw_tea; raw_gold_thali; raw_dal] [] =
     validate_loop [raw_tea; raw_dal] []
  /\ (exists m, MenuItem_init raw_dal = Ok m
                /\ price m = Some (9999999 # 100)
                /\ Forall price_ok (price_fields m)).
Proof.
  destruct validated_prices_within_bounds as (Hinv & Hrej & Hacc & Hdal & Hgold).
  split; [|split; [|split]].
  - apply (Hrej raw_gold_thali (150000 # 1)); [left | right; exact Hgold].
  - apply (Hrej raw_refund (-1 # 1)); [left | left; reflexivity].
  - apply (proj2 (Hrej raw_gold_thali (150000 # 1) (list_elem_of_here _ _)
                    (or_intror Hgold)) [raw_tea] [raw_dal] []).
  - destruct (Hacc raw_dal) as (m & Hm & Hp).
    + vm_compute. lia.
    + repeat constructor. exact (proj1 Hdal). exact (proj2 Hdal).
    + exists m. split; [exact Hm|]. split.
      * injection Hp as Hprice _. exact Hprice.
      * exact (Hinv raw_dal m Hm).
Defined.

(** C10.  A record whose [item_name] has fewer than two characters is
    rejected by the [min_length] check, whatever else it holds, and the
    validation loop passes over it; such a name can be non-empty, and a
    name of exactly two characters is accepted. *)
Theorem short_item_name_rejected (r : raw_item) :
  length (raw_item_name r) < 2 ->
  MenuItem_init r = Raise (ValidationError "item_name" "string_too_short")
  /\ retained r = None
  /\ (forall l1 l2 valid_items,
        validate_loop (l1 ++ r :: l2) valid_items =
        validate_loop (l1 ++ l2) valid_items)
  /\ (length (raw_item_name raw_x) = 1
      /\ MenuItem_init raw_x =
         Raise (ValidationError "item_name" "string_too_short"))
  /\ (length (raw_item_name raw_xi) = 2
      /\ MenuItem_init raw_xi = Ok (item_of_raw raw_xi)).
Proof.
  intros Hlen.
  pose proof (MenuItem_init_short_name r Hlen) as Hr.
  pose proof (retained_rejected r _ Hr) as Hd.
  split; [exact Hr|]. split; [exact Hd|]. split.
  - intros l1 l2 valid_items. apply validate_loop_drop. exact Hd.
  - split; split; reflexivity.
Qed.

Lemma short_item_name_rejected_witness :
  length (raw_item_name raw_x) < 2
  /\ MenuItem_init raw_x = Raise (ValidationError "item_name" "string_too_short")
  /\ validate_loop [raw_tea; raw_x] [] = validate_loop [raw_tea] [].
Proof.
  assert (Hlen : length (raw_item_name raw_x) < 2) by (vm_compute; lia).
  destruct (short_item_name_rejected raw_x Hlen) as (Hr & _ & Hd & _).
  split; [exact Hlen|]. split; [exact Hr|].
  exact (Hd [raw_tea] [] []).
Defined.

(** ** The retry loop *)

Section ParserProperties.

Variable World : Type.
Variable llm : str -> World -> result llm_data * World.
Variable normalize : str -> str.

Lemma retry_loop_cons chunk attempt rest backoff (s : io World) :
  retry_loop llm chunk (attempt :: rest) backoff s =
  match llm chunk (world s) with
  | (Ok data, w) =>
      (Some data, {| world := w; trace := trace s ++ [EvCall chunk] |})
  | (Raise _, w) =>
      if attempt =? max_retries
      then (None, {| world := w; trace := trace s ++ [EvCall chunk] |})
      else retry_loop llm chunk rest (backoff * 2)
             {| world := w;
                trace := (trace s ++ [EvCall chunk]) ++ [EvSleep backoff] |}
  end.
Proof.
  simpl. unfold call. destruct (llm chunk (world s)) as [[data|e] w]; reflexivity.
Qed.

(** The three shapes a run of the retry loop can take. *)
Lemma call_llm_with_retries_cases chunk (s : io World) :
  (exists d w,
      _call_llm_with_retries llm chunk s =
      (Some d, {| world := w; trace := trace s ++ attempts_trace chunk 1 |}))
  \/ (exists d w,
      _call_llm_with_retries llm chunk s =
      (Some d, {| world := w; trace := trace s ++ attempts_trace chunk 2 |}))
  \/ (exists r w,
      _call_llm_with_retries llm chunk s =
      (r, {| world := w; trace := trace s ++ attempts_trace chunk 3 |})).
Proof.
  unfold _call_llm_with_retries. change (seq 1 max_retries) with [1; 2; 3].
  rewrite retry_loop_cons. destruct (llm chunk (world s)) as [[d1|e1] w1].
  { left. eauto. }
  change (1 =? max_retries) with false. cbv iota.
  rewrite retry_loop_cons. cbn [world trace].
  destruct (llm chunk w1) as [[d2|e2] w2].
  { right. left. exists d2, w2. rewrite <- !app_assoc. reflexivity. }
  change (2 =? max_retries) with false. cbv iota.
  rewrite retry_loop_cons. cbn [world trace].
  right. right.
  destruct (llm chunk w2) as [[d3|e3] w3].
  - exists (Some d3), w3. rewrite <- !app_assoc. reflexivity.
  - exists None, w3. change (3 =? max_retries) with true. cbv iota.
    rewrite <- !app_assoc. reflexivity.
Qed.


(** C3.  One retrying call makes between one and three attempts on the
    chunk, sleeping 1 and then 2 time units between them and never after
    the last.  Two failures followed by a success return the data of the
    third attempt; three failures return [None], an ordinary value that
    adds no item to the orchestrator's list. *)
Theorem call_llm_with_retries_spec chunk (s : io World) :
  (exists k,
      1 <= k <= 3
      /\ trace (snd (_call_llm_with_retries llm chunk s)) =
         trace s ++ attempts_trace chunk k
      /\ (fst (_call_llm_with_retries llm chunk s) = None -> k = 3))
  /\ (forall e1 w1 e2 w2 d w3,
        llm chunk (world s) = (Raise e1, w1) ->
        llm chunk w1 = (Raise e2, w2) ->
        llm chunk w2 = (Ok d, w3) ->
        _call_llm_with_retries llm chunk s =
        (Some d,
         {| world := w3;
            trace := trace s ++ [EvCall chunk; EvSleep 1; EvCall chunk;
                                 EvSleep 2; EvCall chunk] |}))
  /\ (forall e1 w1 e2 w2 e3 w3,
        llm chunk (world s) = (Raise e1, w1) ->
        llm chunk w1 = (Raise e2, w2) ->
        llm chunk w2 = (Raise e3, w3) ->
        _call_llm_with_retries llm chunk s =
        (None,
         {| world := w3;
            trace := trace s ++ [EvCall chunk; EvSleep 1; EvCall chunk;
                                 EvSleep 2; EvCall chunk] |})
        /\ forall all_items,
             extend_parsed all_items
               (fst (_call_llm_with_retries llm chunk s)) = all_items).
Proof.
  split; [|split].
  - destruct (call_llm_with_retries_cases chunk s)
      as [(d & w & E)|[(d & w & E)|(r & w & E)]]; rewrite E; cbn [fst snd trace].
    + exists 1. split; [lia|]. split; [reflexivity|discriminate].
    + exists 2. split; [lia|]. split; [reflexivity|discriminate].
    + exists 3. split; [lia|]. split; reflexivity.
  - intros e1 w1 e2 w2 d w3 H1 H2 H3.
    unfold _call_llm_with_retries. change (seq 1 max_retries) with [1; 2; 3].
    rewrite retry_loop_cons, H1.
    change (1 =? max_retries) with false. cbv iota.
    rewrite retry_loop_cons. cbn [world trace]. rewrite H2.
    change (2 =? max_retries) with false. cbv iota.
    rewrite retry_loop_cons. cbn [world trace]. rewrite H3.
    rewrite <- !app_assoc. reflexivity.
  - intros e1 w1 e2 w2 e3 w3 H1 H2 H3.
    assert (E : _call_llm_with_retries llm chunk s =
                (None,
                 {| world := w3;
                    trace := trace s ++ [EvCall chunk; EvSleep 1; EvCall chunk;
                                         EvSleep 2; EvCall chunk] |})).
    { unfold _call_llm_with_retries. change (seq 1 max_retries) with [1; 2; 3].
      rewrite retry_loop_cons, H1.
      change (1 =? max_retries) with false. cbv iota.
      rewrite retry_loop_cons. cbn [world trace]. rewrite H2.
      change (2 =? max_retries) with false. cbv iota.
      rewrite retry_loop_cons. cbn [world trace]. rewrite H3.
      change (3 =? max_retries) with true. cbv iota.
      rewrite <- !app_assoc. reflexivity. }
    split; [exact E|]. intros all_items. rewrite E. reflexivity.
Qed.

(** ** The orchestrator *)

Lemma collect_loop_acc chunks all_items (s : io World) :
  collect_loop llm chunks all_items s =
  (all_items ++ fst (collect_loop llm chunks [] s),
   snd (collect_loop llm chunks [] s)).
Proof.
  revert all_items s. induction chunks as [|chunk rest IH]; intros all_items s.
  - simpl. rewrite app_nil_r. reflexivity.
  - simpl. destruct (_call_llm_with_retries llm chunk s) as [parsed s1].
    rewrite (IH (extend_parsed all_items parsed)), (IH (extend_parsed [] parsed)).
    cbn [fst snd]. destruct parsed as [d|]; simpl.
    + rewrite app_assoc. reflexivity.
    + reflexivity.
Qed.


Lemma py_truediv_max a b :
  py_truediv a (Nat.max 1 b) = Ok (Z.of_nat a # Pos.of_nat (Nat.max 1 b)).
Proof.
  unfold py_truediv.
  destruct (Nat.eqb_spec (Nat.max 1 b) 0) as [E|_]; [lia|reflexivity].
Qed.

Lemma ratio_bounds a b :
  a <= b ->
  (0 <= Z.of_nat a # Pos.of_nat (Nat.max 1 b)
   /\ Z.of_nat a # Pos.of_nat (Nat.max 1 b) <= 1)%Q.
Proof.
  intros Hab. unfold Qle. simpl. split; [lia|].
  rewrite Z.mul_1_r, Z.mul_1_l.
  rewrite <- positive_nat_Z, Nat2Pos.id by lia. lia.
Qed.

Lemma MenuData_init_ok name its total confidence :
  (0 <= confidence /\ confidence <= 1)%Q ->
  MenuData_init name its total confidence =
  Ok {| items := its;
        restaurant_name := name;
        total_items := total;
        source_file := None;
        extraction_confidence := confidence;
        detected_currency := None;
        extraction_method := None |}.
Proof.
  intros [H0 H1]. apply Qle_bool_iff in H0. apply Qle_bool_iff in H1.
  unfold MenuData_init. rewrite H0, H1. reflexivity.
Qed.

(** [parse_menu] never raises, and this is what it returns. *)
Lemma parse_menu_ok text name (s : io World) :
  fst (parse_menu llm normalize text name s) =
  Ok (let all_items :=
        fst (collect_loop llm (_chunk_text (normalize text)) [] s) in
      {| items := omap retained all_items;
         restaurant_name := Some (name_or_unknown name);
         total_items := length (omap retained all_items);
         source_file := None;
         extraction_confidence :=
           Z.of_nat (length (omap retained all_items))
           # Pos.of_nat (Nat.max 1 (length all_items));
         detected_currency := None;
         extraction_method := None |}).
Proof.
  unfold parse_menu.
  destruct (collect_loop llm (_chunk_text (normalize text)) [] s)
    as [all_items s1].
  cbn [fst]. rewrite validate_loop_omap, py_truediv_max. cbn [bind].
  apply MenuData_init_ok. apply ratio_bounds. apply omap_length_le.
Qed.


Lemma unpriced_not_retained r :
  Forall (fun v => v = None) (raw_price_fields r) -> retained r = None.
Proof.
  intros Hnone. unfold retained.
  destruct (MenuItem_init r) as [obj|e] eqn:E; [|reflexivity].
  apply MenuItem_init_inv in E as (_ & _ & ->).
  rewrite <- price_fields_item_of_raw in Hnone.
  apply has_any_price_spec in Hnone. rewrite Hnone. reflexivity.
Qed.

(** C8.  A raw item whose six price fields are all null is never retained:
    the validation loop passes over it, every item of the [MenuData] that
    [parse_menu] returns has a price, and the item built from the raw item
    is not among them. *)
Theorem unpriced_item_never_retained text name (s : io World) (r : raw_item) :
  Forall (fun v => v = None) (raw_price_fields r) ->
  retained r = None
  /\ (forall l1 l2 valid_items,
        validate_loop (l1 ++ r :: l2) valid_items =
        validate_loop (l1 ++ l2) valid_items)
  /\ exists md,
       fst (parse_menu llm normalize text name s) = Ok md
       /\ Forall (fun m => has_any_price m = true) (items md)
       /\ item_of_raw r ∉ items md.
Proof.
  intros Hnone. pose proof (unpriced_not_retained r Hnone) as Hr.
  split; [exact Hr|]. split.
  - intros l1 l2 valid_items. apply validate_loop_drop. exact Hr.
  - eexists. split; [apply parse_menu_ok|]. cbn [items].
    assert (Hall : Forall (fun m => has_any_price m = true)
                     (omap retained
                        (fst (collect_loop llm (_chunk_text (normalize text)) [] s)))).
    { apply Forall_forall. intros m Hm.
      apply list_elem_of_omap in Hm as (r' & _ & Hr').
      eapply retained_has_price. exact Hr'. }
    split; [exact Hall|]. intros Hin.
    rewrite Forall_forall in Hall. specialize (Hall _ Hin).
    rewrite <- price_fields_item_of_raw in Hnone.
    apply has_any_price_spec in Hnone. congruence.
Qed.

End ParserProperties.

Lemma call_llm_with_retries_spec_witness :
  _call_llm_with_retries flaky_client (py "Tea 10") io0 =
  (Some {| data_items := [raw_tea] |},
   {| world := 3;
      trace := [EvCall (py "Tea 10"); EvSleep 1; EvCall (py "Tea 10");
                EvSleep 2; EvCall (py "Tea 10")] |})
  /\ _call_llm_with_retries dead_client (py "Tea 10") io0 =
     (None,
      {| world := 3;
         trace := [EvCall (py "Tea 10"); EvSleep 1; EvCall (py "Tea 10");
                   EvSleep 2; EvCall (py "Tea 10")] |}).
Proof.
  split.
  - destruct (call_llm_with_retries_spec nat flaky_client (py "Tea 10") io0)
      as (_ & Hok & _).
    apply (Hok ClientError 1 ClientError 2 _ 3); reflexivity.
  - destruct (call_llm_with_retries_spec nat dead_client (py "Tea 10") io0)
      as (_ & _ & Hfail).
    apply (Hfail ClientError 1 ClientError 2 ClientError 3); reflexivity.
Defined.



Lemma unpriced_item_never_retained_witness :
  Forall (fun v => v = None) (raw_price_fields raw_bread)
  /\ exists md,
       fst (parse_menu bread_tea_client (fun t => t) (py "Bread Tea 10") None io0)
       = Ok md
       /\ item_of_raw raw_bread ∉ items md.
Proof.
  assert (Hnone : Forall (fun v => v = None) (raw_price_fields raw_bread))
    by (repeat constructor).
  split; [exact Hnone|].
  destruct (unpriced_item_never_retained nat bread_tea_client (fun t => t)
              (py "Bread Tea 10") None io0 raw_bread Hnone)
    as (_ & _ & md & Hmd & _ & Hnot).
  exists md. split; [exact Hmd | exact Hnot].
Defined.

(** ** The summary *)

Lemma summary_fold_categories l st k :
  categories (fold_left summary_step l st) !! k =
  match count_category k l with
  | 0 => categories st !! k
  | S n => Some (default 0 (categories st !! k) + S n)
  end.
Proof.
  revert st. induction l as [|i l IH]; intros st; [reflexivity|].
  cbn [fold_left]. rewrite IH. unfold count_category.
  rewrite filter_cons.
  assert (Hcat : categories (summary_step st i) =
                 <[effective_category i :=
                     default 0 (categories st !! effective_category i) + 1]>
                   (categories st)).
  { unfold summary_step. destruct (has_any_price i); reflexivity. }
  rewrite Hcat. destruct (decide (effective_category i = k)) as [->|Hne].
  - rewrite lookup_insert_eq. cbn [length default]. unfold id.
    destruct (length _); f_equal; lia.
  - rewrite lookup_insert_ne by exact Hne. reflexivity.
Qed.

Lemma summary_fold_total l st :
  total_with_prices (fold_left summary_step l st) =
  total_with_prices st + length (filter (fun i => has_any_price i = true) l).
Proof.
  revert st. induction l as [|i l IH]; intros st; [simpl; lia|].
  cbn [fold_left]. rewrite IH, filter_cons. unfold summary_step.
  destruct (has_any_price i); simpl.
  - destruct (decide (true = true)); [simpl; lia|congruence].
  - destruct (decide (false = true)); [discriminate|lia].
Qed.

Lemma summary_step_prices st i :
  price_range (summary_step st i) = price_range st ++ omap summary_price [i].
Proof.
  change (omap summary_price [i])
    with (match summary_price i with Some y => [y] | None => [] end).
  unfold summary_step, summary_price, append_if_truthy.
  destruct (has_any_price i); cbn [price_range]; [|symmetry; apply app_nil_r].
  destruct (get_primary_price i) as [x|]; [|symmetry; apply app_nil_r].
  destruct (truthy (Some x)); [reflexivity|symmetry; apply app_nil_r].
Qed.

Lemma summary_fold_prices l st :
  price_range (fold_left summary_step l st) =
  price_range st ++ omap summary_price l.
Proof.
  revert st. induction l as [|i l IH]; intros st.
  - simpl. symmetry. apply app_nil_r.
  - cbn [fold_left]. rewrite IH, summary_step_prices, <- app_assoc, <- omap_app.
    reflexivity.
Qed.

Lemma Qltb_false x y : Qltb x y = false -> (y <= x)%Q.
Proof.
  unfold Qltb. intros H. apply negb_false_iff in H.
  apply Qle_bool_iff. exact H.
Qed.

Lemma Qltb_true x y : Qltb x y = true -> (x <= y)%Q.
Proof.
  unfold Qltb. intros H. apply negb_true_iff in H.
  apply Qlt_le_weak, Qnot_le_lt. intros Hle.
  apply Qle_bool_iff in Hle. congruence.
Qed.

Lemma py_min_spec x l :
  py_min x l ∈ x :: l /\ Forall (fun y => (py_min x l <= y)%Q) (x :: l).
Proof.
  revert x. induction l as [|y l IH]; intros x.
  - simpl. split; [left|]. repeat constructor. apply Qle_refl.
  - unfold py_min. cbn [fold_left]. fold (py_min (if Qltb y x then y else x) l).
    destruct (IH (if Qltb y x then y else x)) as [Hin Hle].
    apply Forall_cons in Hle as [Hhd Htl].
    destruct (Qltb y x) eqn:E.
    + split.
      * right. exact Hin.
      * constructor; [|constructor; assumption].
        eapply Qle_trans; [exact Hhd|]. apply Qltb_true. exact E.
    + split.
      * apply elem_of_cons in Hin as [->|Hin]; [left|right; right; exact Hin].
      * constructor; [exact Hhd|]. constructor; [|exact Htl].
        eapply Qle_trans; [exact Hhd|]. apply Qltb_false. exact E.
Qed.

Lemma py_max_spec x l :
  py_max x l ∈ x :: l /\ Forall (fun y => (y <= py_max x l)%Q) (x :: l).
Proof.
  revert x. induction l as [|y l IH]; intros x.
  - simpl. split; [left|]. repeat constructor. apply Qle_refl.
  - unfold py_max. cbn [fold_left]. fold (py_max (if Qltb x y then y else x) l).
    destruct (IH (if Qltb x y then y else x)) as [Hin Hle].
    apply Forall_cons in Hle as [Hhd Htl].
    destruct (Qltb x y) eqn:E.
    + split.
      * right. exact Hin.
      * constructor; [|constructor; assumption].
        eapply Qle_trans; [|exact Hhd]. apply Qltb_true. exact E.
    + split.
      * apply elem_of_cons in Hin as [->|Hin]; [left|right; right; exact Hin].
      * constructor; [exact Hhd|]. constructor; [|exact Htl].
        eapply Qle_trans; [|exact Hhd]. apply Qltb_false. exact E.
Qed.

Lemma fold_left_Qplus l a : (fold_left Qplus l a == a + sum_list l)%Q.
Proof.
  revert a. induction l as [|x l IH]; intros a; simpl.
  - ring.
  - rewrite IH. ring.
Qed.

Lemma py_sum_sum_list l : (py_sum l == sum_list l)%Q.
Proof. unfold py_sum. rewrite fold_left_Qplus. ring. Qed.

Lemma summary_price_nonzero i :
  Forall nonzero (price_fields i) -> summary_price i = spec_primary_price i.
Proof.
  intros Hnz. unfold summary_price.
  rewrite (get_primary_price_nonzero i Hnz).
  destruct (has_any_price i) eqn:Hp.
  - destruct (spec_primary_price i) as [x|] eqn:E; [|reflexivity].
    assert (Hx : nonzero (Some x)).
    { rewrite Forall_forall in Hnz. apply Hnz.
      unfold spec_primary_price in E. unfold price_fields.
      destruct (price i); [injection E as ->; set_solver|].
      destruct (full_plate_price i); [injection E as ->; set_solver|].
      destruct (half_plate_price i); [injection E as ->; set_solver|].
      destruct (large_price i); [injection E as ->; set_solver|].
      destruct (medium_price i); [injection E as ->; set_solver|].
      destruct (small_price i); [injection E as ->; set_solver|].
      discriminate. }
    simpl in Hx. simpl. destruct (Qeq_bool x 0) eqn:E0; [|reflexivity].
    apply Qeq_bool_iff in E0. contradiction.
  - apply has_any_price_spec in Hp. unfold price_fields in Hp.
    repeat match goal with
           | H : Forall _ (_ :: _) |- _ => apply Forall_cons in H; destruct H
           end.
    unfold spec_primary_price.
    repeat match goal with H : _ = None |- _ => rewrite H; clear H end.
    reflexivity.
Qed.

Lemma omap_summary_price_spec l :
  Forall (fun i => Forall nonzero (price_fields i)) l ->
  omap summary_price l =
  omap spec_primary_price (filter (fun i => has_any_price i = true) l).
Proof.
  induction 1 as [|i l Hi _ IH]; [reflexivity|].
  rewrite filter_cons. csimpl.
  destruct (decide (has_any_price i = true)) as [Hp|Hp].
  - csimpl. rewrite (summary_price_nonzero i Hi), IH. reflexivity.
  - unfold summary_price at 1. apply not_true_is_false in Hp. rewrite Hp.
    exact IH.
Qed.

(** C9.  The price range is not taken over the primary price of every item
    that has a price: [get_summary] appends the primary price only when it
    is truthy, so an item whose price is 0 counts in [items_with_prices]
    and is left out of the range.  For [Soda] at 0 and [Tea] at 10 the
    primary prices of the two priced items are 0 and 10, and the range the
    code returns is the range of 10 alone, with min 10 instead of 0. *)
Theorem summary_price_range_skips_zero :
  Forall (fun i => has_any_price i = true) (items (menu_of [raw_soda; raw_tea]))
  /\ summary_items_with_prices (get_summary (menu_of [raw_soda; raw_tea])) = 2
  /\ spec_price_values (menu_of [raw_soda; raw_tea]) = [0 # 1; 10 # 1]%Q
  /\ summary_price_range (get_summary (menu_of [raw_soda; raw_tea])) =
     price_range_of [10 # 1]%Q
  /\ range_min (summary_price_range (get_summary (menu_of [raw_soda; raw_tea])))
     = Some (10 # 1)
  /\ range_min (price_range_of (spec_price_values (menu_of [raw_soda; raw_tea])))
     = Some (0 # 1)
  /\ summary_price_range (get_summary (menu_of [raw_soda; raw_tea])) <>
     price_range_of (spec_price_values (menu_of [raw_soda; raw_tea])).
Proof.
  split; [repeat constructor|]. split; [reflexivity|].
  split; [reflexivity|]. split; [reflexivity|].
  split; [reflexivity|]. split; [reflexivity|].
  intros H. apply (f_equal range_min) in H. vm_compute in H. discriminate.
Qed.

(** ** Worked examples *)

Example strip_example : strip (py "  ab c ") = py "ab c".
Proof. reflexivity. Qed.

Example clean_name_example :
  clean_name (py " Butter   Chicken ") = py "Butter Chicken".
Proof. reflexivity. Qed.

(** A name of two or more characters passes [min_length] before it is
    cleaned, whatever is left of it afterwards. *)
Example clean_name_after_min_length :
  item_name <$> retained (raw_named "a " (Some (10 # 1)) None) = Some (py "a").
Proof. reflexivity. Qed.

Example chunk_text_4001 :
  map length (_chunk_text (repeat 97%N 4001)) = [2000; 2000; 1].
Proof. vm_compute. reflexivity. Qed.

(** Three chunks, one valid priced item returned for each: three items and
    confidence 1, after three client calls and no sleep. *)
Example parse_menu_three_chunks :
  (fun '(r, s) => (total_items <$> (match r with Ok md => Some md | Raise _ => None end),
                   extraction_confidence <$> (match r with Ok md => Some md | Raise _ => None end),
                   world s, sleeps (trace s)))
    (parse_menu tea_client (fun t => t) (repeat 97%N 5000) None io0)
  = (Some 3, Some (3 # 3), 3, []).
Proof. vm_compute. reflexivity. Qed.

(** One failing chunk costs three calls and the sleeps 1 and 2, and the
    parse goes on. *)
Example parse_menu_dead_client :
  (fun '(r, s) => (is_ok r, world s, sleeps (trace s)))
    (parse_menu dead_client (fun t => t) (repeat 97%N 2001) None io0)
  = (true, 6, [1; 2; 1; 2]).
Proof. vm_compute. reflexivity. Qed.

(** * Further properties *)

(** ** Trimming and whitespace *)

Lemma all_space_rev a : all_space a -> all_space (rev a).
Proof.
  unfold all_space. induction 1 as [|c a Hc _ IH]; simpl; [constructor|].
  apply Forall_app. split; [exact IH | repeat constructor; exact Hc].
Qed.

Lemma lstrip_split s : exists a, s = a ++ lstrip s /\ all_space a.
Proof.
  induction s as [|c s (a & Hs & Ha)]; simpl.
  - exists []. split; [reflexivity | constructor].
  - destruct (is_space c) eqn:E.
    + exists (c :: a). split; [simpl; f_equal; exact Hs|].
      constructor; assumption.
    + exists []. split; [reflexivity | constructor].
Qed.

Lemma lstrip_starts_clean s : starts_clean (lstrip s).
Proof.
  induction s as [|c s IH]; simpl; [exact I|].
  destruct (is_space c) eqn:E; [exact IH | exact E].
Qed.

Lemma lstrip_clean s : starts_clean s -> lstrip s = s.
Proof.
  destruct s as [|c s]; simpl; [reflexivity|]. intros ->. reflexivity.
Qed.

Lemma rstrip_split s : exists b, s = rstrip s ++ b /\ all_space b.
Proof.
  destruct (lstrip_split (rev s)) as (a & Hs & Ha).
  exists (rev a). split; [|apply all_space_rev; exact Ha].
  unfold rstrip. rewrite <- rev_app_distr, <- Hs, rev_involutive. reflexivity.
Qed.

Lemma strip_split s :
  exists a b, s = a ++ strip s ++ b /\ all_space a /\ all_space b.
Proof.
  destruct (lstrip_split s) as (a & Hs & Ha).
  destruct (rstrip_split (lstrip s)) as (b & Hl & Hb).
  exists a, b. split; [|split; assumption].
  unfold strip. rewrite <- Hl. exact Hs.
Qed.

Lemma starts_clean_prefix s b : starts_clean (s ++ b) -> s <> [] -> starts_clean s.
Proof. destruct s as [|c s]; simpl; [congruence | auto]. Qed.

Lemma strip_trimmed s : trimmed (strip s).
Proof.
  split.
  - destruct (rstrip_split (lstrip s)) as (b & Hl & _).
    fold (strip s) in Hl. destruct (strip s) as [|c t] eqn:E; [exact I|].
    pose proof (lstrip_starts_clean s) as Hc. rewrite Hl in Hc. exact Hc.
  - unfold strip, rstrip. rewrite rev_involutive. apply lstrip_starts_clean.
Qed.

Lemma strip_of_trimmed s : trimmed s -> strip s = s.
Proof.
  intros [H1 H2]. unfold strip, rstrip.
  rewrite (lstrip_clean s H1), (lstrip_clean (rev s) H2).
  apply rev_involutive.
Qed.

Lemma non_space_app s t : non_space (s ++ t) = non_space s ++ non_space t.
Proof. apply List.filter_app. Qed.

Lemma non_space_all_space a : all_space a -> non_space a = [].
Proof.
  induction 1 as [|c a Hc _ IH]; [reflexivity|].
  simpl. rewrite Hc. exact IH.
Qed.

Lemma non_space_space_free w : space_free w -> non_space w = w.
Proof.
  induction 1 as [|c w Hc _ IH]; [reflexivity|].
  simpl. rewrite Hc. simpl. f_equal. exact IH.
Qed.

Lemma non_space_strip s : non_space (strip s) = non_space s.
Proof.
  destruct (strip_split s) as (a & b & Hs & Ha & Hb).
  rewrite Hs at 2. rewrite !non_space_app.
  rewrite (non_space_all_space a Ha), (non_space_all_space b Hb).
  rewrite app_nil_r. reflexivity.
Qed.

Lemma non_space_concat l :
  non_space (concat l) = concat (map non_space l).
Proof.
  induction l as [|s l IH]; [reflexivity|].
  simpl. rewrite non_space_app, IH. reflexivity.
Qed.

(** ** More on the chunker *)

(** X1.  Chunking loses no visible character: the non-whitespace characters
    of the chunks, read in order, are those of the text. *)
Theorem chunk_text_keeps_non_space (T : str) :
  non_space (concat (_chunk_text T)) = non_space T.
Proof.
  destruct (le_lt_dec (length T) max_chars) as [Hle|Hlt].
  - rewrite chunk_text_short by exact Hle. simpl. rewrite app_nil_r. reflexivity.
  - rewrite chunk_text_long by exact Hlt.
    rewrite <- (take_drop 0 T) at 2. simpl.
    rewrite <- (segment_loop_concat T 0). rewrite !non_space_concat. f_equal.
    rewrite map_map. apply map_ext. intros s. apply non_space_strip.
Qed.

Lemma chunk_text_bound T : Forall (fun c => length c <= max_chars) (_chunk_text T).
Proof.
  destruct (le_lt_dec (length T) max_chars) as [Hle|Hlt].
  - rewrite chunk_text_short by exact Hle. constructor; [exact Hle | constructor].
  - rewrite chunk_text_long by exact Hlt. apply Forall_map.
    eapply Forall_impl; [apply segment_loop_bound|].
    intros s Hs. simpl. etransitivity; [apply strip_length | exact Hs].
Qed.

Lemma ceil_div_large a b : 0 < b -> b < a -> 2 <= ceil_div a b.
Proof.
  intros Hb Hab. unfold ceil_div.
  apply Nat.div_le_lower_bound; lia.
Qed.

(** X2.  The number of chunks is [max(1, ceil(len(T) / max_chars))] for
    every text, so there is always at least one chunk, and the token
    estimate of every chunk lies between 1 and 500. *)
Theorem chunk_text_count_and_tokens (T : str) :
  length (_chunk_text T) = Nat.max 1 (ceil_div (length T) max_chars)
  /\ Forall (fun c => 1 <= estimate_tokens c <= 500) (_chunk_text T).
Proof.
  pose proof max_chars_pos as Hpos. split.
  - destruct (le_lt_dec (length T) max_chars) as [Hle|Hlt].
    + rewrite chunk_text_short by exact Hle. cbn [length].
      destruct (Nat.eq_dec (length T) 0) as [E|E].
      * rewrite E, ceil_div_0 by exact Hpos. reflexivity.
      * rewrite ceil_div_small by lia. reflexivity.
    + rewrite chunk_text_long by exact Hlt.
      rewrite length_map, segment_loop_count, Nat.sub_0_r.
      pose proof (ceil_div_large (length T) max_chars Hpos Hlt). lia.
  - eapply Forall_impl; [apply chunk_text_bound|].
    intros c Hc. simpl in Hc. unfold estimate_tokens.
    assert (length c / 4 <= 500).
    { apply Nat.Div0.div_le_upper_bound. unfold max_chars in Hc. lia. }
    lia.
Qed.

(** X3.  When the text is longer than [max_chars] there are at least two
    chunks and none of them begins or ends with whitespace. *)
Theorem chunk_text_long_trimmed (T : str) :
  max_chars < length T ->
  2 <= length (_chunk_text T) /\ Forall trimmed (_chunk_text T).
Proof.
  intros Hlt. rewrite chunk_text_long by exact Hlt. split.
  - rewrite length_map, segment_loop_count, Nat.sub_0_r.
    apply ceil_div_large; [apply max_chars_pos | exact Hlt].
  - apply Forall_map. apply Forall_forall. intros s _. apply strip_trimmed.
Qed.

Lemma chunk_text_long_trimmed_witness :
  max_chars < length (repeat 32%N 1999 ++ repeat 97%N 2)
  /\ _chunk_text (repeat 32%N 1999 ++ repeat 97%N 2) = [py "a"; py "a"]
  /\ Forall trimmed (_chunk_text (repeat 32%N 1999 ++ repeat 97%N 2)).
Proof.
  assert (Hlt : max_chars < length (repeat 32%N 1999 ++ repeat 97%N 2)).
  { apply Nat.ltb_lt. vm_compute. reflexivity. }
  split; [exact Hlt|]. split; [vm_compute; reflexivity|].
  exact (proj2 (chunk_text_long_trimmed _ Hlt)).
Defined.

(** ** [clean_name] *)

Lemma space_free_rev w : space_free w -> space_free (rev w).
Proof.
  unfold space_free. induction 1 as [|c w Hc _ IH]; simpl; [constructor|].
  apply Forall_app. split; [exact IH | repeat constructor; exact Hc].
Qed.

Lemma rev_not_nil {A} (l : list A) : l <> [] -> rev l <> [].
Proof.
  intros Hl E. apply Hl. rewrite <- (rev_involutive l), E. reflexivity.
Qed.

Lemma split_ws_words cur s : space_free cur -> Forall word (split_ws cur s).
Proof.
  revert cur. induction s as [|c s IH]; intros cur Hcur; simpl.
  - destruct cur as [|x cur]; [constructor|].
    repeat constructor; [apply rev_not_nil; discriminate|].
    apply space_free_rev. exact Hcur.
  - destruct (is_space c) eqn:E.
    + destruct cur as [|x cur]; [apply IH; constructor|].
      constructor; [|apply IH; constructor].
      split; [apply rev_not_nil; discriminate | apply space_free_rev; exact Hcur].
    + apply IH. constructor; assumption.
Qed.

Lemma split_ws_concat cur s :
  concat (split_ws cur s) = rev cur ++ non_space s.
Proof.
  revert cur. induction s as [|c s IH]; intros cur; simpl.
  - destruct cur as [|x cur]; [reflexivity|]. simpl. rewrite !app_nil_r.
    reflexivity.
  - destruct (is_space c) eqn:E; simpl.
    + destruct cur as [|x cur]; [apply (IH [])|].
      simpl. rewrite (IH []). reflexivity.
    + rewrite IH. simpl. rewrite <- app_assoc. reflexivity.
Qed.

Lemma split_ws_all_space s : all_space s -> split_ws [] s = [].
Proof.
  induction 1 as [|c s Hc _ IH]; [reflexivity|]. simpl. rewrite Hc. exact IH.
Qed.

Lemma split_ws_app_word cur w rest :
  space_free w -> split_ws cur (w ++ rest) = split_ws (rev w ++ cur) rest.
Proof.
  intros Hw. revert cur. induction Hw as [|c w Hc _ IH]; intros cur.
  - reflexivity.
  - simpl. rewrite Hc, IH, <- app_assoc. reflexivity.
Qed.

Lemma join_cons sep p q ps :
  join sep (p :: q :: ps) = p ++ sep ++ join sep (q :: ps).
Proof. reflexivity. Qed.

Lemma split_ws_join ws :
  Forall word ws -> split_ws [] (join (py " ") ws) = ws.
Proof.
  induction 1 as [|w ws [Hne Hw] Hws IH]; [reflexivity|].
  destruct ws as [|q ps].
  - simpl. rewrite <- (app_nil_r w) at 1.
    rewrite split_ws_app_word by exact Hw. simpl. rewrite app_nil_r.
    destruct (rev w) as [|x t] eqn:E; [exfalso; exact (rev_not_nil w Hne E)|].
    rewrite <- E, rev_involutive. reflexivity.
  - rewrite join_cons, split_ws_app_word by exact Hw.
    rewrite app_nil_r. change (py " " ++ join (py " ") (q :: ps))
      with (32%N :: join (py " ") (q :: ps)).
    cbn [split_ws]. change (is_space 32%N) with true. cbv iota.
    destruct (rev w) as [|x t] eqn:E; [exfalso; exact (rev_not_nil w Hne E)|].
    rewrite <- E, rev_involutive, IH. reflexivity.
Qed.

Lemma join_words_non_space ws :
  Forall word ws -> non_space (join (py " ") ws) = concat ws.
Proof.
  induction 1 as [|w ws [_ Hw] Hws IH]; [reflexivity|].
  destruct ws as [|q ps].
  - simpl. rewrite app_nil_r. apply non_space_space_free. exact Hw.
  - rewrite join_cons, !non_space_app, IH.
    rewrite (non_space_space_free w Hw). reflexivity.
Qed.

Lemma join_words_not_nil ws :
  Forall word ws -> ws <> [] -> join (py " ") ws <> [].
Proof.
  intros Hws Hne. destruct Hws as [|w ws [Hw _] _]; [congruence|].
  destruct ws as [|q ps]; [exact Hw|].
  rewrite join_cons. destruct w; [congruence | discriminate].
Qed.

Lemma starts_clean_app s t : s <> [] -> starts_clean s -> starts_clean (s ++ t).
Proof. destruct s; [congruence | auto]. Qed.

Lemma word_starts_clean w : word w -> starts_clean w /\ starts_clean (rev w).
Proof.
  intros [Hne Hw]. split.
  - destruct Hw; [exact I | assumption].
  - pose proof (space_free_rev w Hw) as Hr.
    destruct Hr; [exact I | assumption].
Qed.

Lemma join_words_trimmed ws : Forall word ws -> trimmed (join (py " ") ws).
Proof.
  induction 1 as [|w ws Hw Hws IH]; [split; exact I|].
  destruct (word_starts_clean w Hw) as [Hc Hr].
  destruct ws as [|q ps]; [split; assumption|].
  rewrite join_cons. split.
  - apply starts_clean_app; [exact (proj1 Hw) | exact Hc].
  - rewrite !rev_app_distr, <- app_assoc.
    apply starts_clean_app; [|exact (proj2 IH)].
    apply rev_not_nil, join_words_not_nil; [exact Hws | discriminate].
Qed.

Lemma join_length_cons p ps :
  length (join (py " ") (p :: ps)) <= length p + 1 + length (join (py " ") ps).
Proof.
  destruct ps as [|q ps]; [simpl; lia|].
  rewrite join_cons, !length_app. simpl. lia.
Qed.

Lemma split_ws_join_length cur s :
  length (join (py " ") (split_ws cur s)) <= length cur + length s.
Proof.
  revert cur. induction s as [|c s IH]; intros cur; simpl.
  - destruct cur as [|x cur]; [simpl; lia|].
    cbn [join]. rewrite length_rev. simpl. lia.
  - destruct (is_space c).
    + destruct cur as [|x cur]; [specialize (IH []); simpl in *; lia|].
      etransitivity; [apply join_length_cons|].
      rewrite length_rev. specialize (IH []). simpl in *. lia.
    + specialize (IH (c :: cur)). simpl in IH. lia.
Qed.

Lemma clean_name_join v : clean_name v = join (py " ") (split_ws [] v).
Proof.
  unfold clean_name. apply strip_of_trimmed, join_words_trimmed.
  apply split_ws_words. constructor.
Qed.

Lemma clean_name_trimmed v : trimmed (clean_name v).
Proof.
  rewrite clean_name_join. apply join_words_trimmed, split_ws_words. constructor.
Qed.

Lemma clean_name_length v : length (clean_name v) <= length v.
Proof. rewrite clean_name_join. apply (split_ws_join_length [] v). Qed.

Lemma split_ws_skip_space a s :
  all_space a -> split_ws [] (a ++ s) = split_ws [] s.
Proof.
  induction 1 as [|c a Hc _ IH]; [reflexivity|]. simpl. rewrite Hc. exact IH.
Qed.

Lemma split_ws_close cur b :
  cur <> [] -> all_space b -> split_ws cur b = [rev cur].
Proof.
  intros Hne Hb. destruct Hb as [|c b Hc Hb].
  - simpl. destruct cur; [congruence | reflexivity].
  - simpl. rewrite Hc. destruct cur; [congruence|].
    rewrite (split_ws_all_space b Hb). reflexivity.
Qed.

Lemma split_ws_after_word w c rest :
  word w -> is_space c = true ->
  split_ws [] (w ++ c :: rest) = w :: split_ws [] rest.
Proof.
  intros [Hne Hw] Hc. rewrite split_ws_app_word by exact Hw.
  rewrite app_nil_r. simpl. rewrite Hc.
  destruct (rev w) as [|x t] eqn:E; [exfalso; exact (rev_not_nil w Hne E)|].
  rewrite <- E, rev_involutive. reflexivity.
Qed.

(** The runs of a string are what [split] returns, so they are unique. *)
Lemma runs_split_ws s ws : runs s ws -> split_ws [] s = ws.
Proof.
  induction 1 as [s Hs | a w b Ha Hw Hb | a w c rest ws Ha Hw Hc _ IH _].
  - apply split_ws_all_space. exact Hs.
  - rewrite split_ws_skip_space by exact Ha.
    rewrite split_ws_app_word by exact (proj2 Hw). rewrite app_nil_r.
    rewrite split_ws_close;
      [rewrite rev_involutive; reflexivity
      | apply rev_not_nil; exact (proj1 Hw) | exact Hb].
  - rewrite split_ws_skip_space by exact Ha.
    rewrite split_ws_after_word by assumption. rewrite IH. reflexivity.
Qed.

Lemma runs_nil_all_space s : runs s [] -> all_space s.
Proof. inversion 1. assumption. Qed.

(** A string is a whitespace-free prefix followed by nothing or by a
    whitespace character. *)
Lemma span_word s :
  exists w t, s = w ++ t /\ space_free w
              /\ (t = [] \/ exists c t', t = c :: t' /\ is_space c = true).
Proof.
  induction s as [|c s (w & t & Hs & Hw & Ht)].
  - exists [], []. split; [reflexivity|]. split; [constructor | left; reflexivity].
  - destruct (is_space c) eqn:E.
    + exists [], (c :: s). split; [reflexivity|]. split; [constructor|].
      right. exists c, s. split; [reflexivity | exact E].
    + exists (c :: w), t. split; [simpl; f_equal; exact Hs|].
      split; [constructor; assumption | exact Ht].
Qed.

Lemma runs_exists_bounded n s : length s <= n -> exists ws, runs s ws.
Proof.
  revert s. induction n as [|n IH]; intros s Hn.
  - destruct s; [|simpl in Hn; lia]. exists []. constructor. constructor.
  - destruct (lstrip_split s) as (a & Hs & Ha).
    pose proof (lstrip_starts_clean s) as Hclean.
    destruct (lstrip s) as [|x s1] eqn:E.
    { exists []. constructor. rewrite Hs, app_nil_r. exact Ha. }
    destruct (span_word (x :: s1)) as (w & t & Hst & Hw & Ht).
    assert (Hword : word w).
    { split; [|exact Hw]. intros ->. simpl in Hst. subst t.
      destruct Ht as [Ht|(c & t' & Ht & Hc)]; [discriminate|].
      injection Ht as -> ->. simpl in Hclean. congruence. }
    assert (Hlen : length s = length a + length w + length t).
    { rewrite Hs, Hst, !length_app. lia. }
    destruct Ht as [->|(c & t' & -> & Hc)].
    + exists [w]. rewrite Hs, Hst. apply runs_one; [exact Ha | exact Hword | constructor].
    + destruct (IH t') as (ws & Hws).
      { simpl in Hlen. destruct Hword as [Hne _].
        destruct w; [congruence | simpl in Hlen; lia]. }
      destruct ws as [|w2 ws].
      * exists [w]. rewrite Hs, Hst. apply runs_one; [exact Ha | exact Hword|].
        constructor; [exact Hc | apply runs_nil_all_space; exact Hws].
      * exists (w :: w2 :: ws). rewrite Hs, Hst.
        apply runs_more; [exact Ha | exact Hword | exact Hc | exact Hws | discriminate].
Qed.

Lemma runs_of_split_ws s : runs s (split_ws [] s).
Proof.
  destruct (runs_exists_bounded (length s) s (le_n _)) as (ws & Hws).
  rewrite (runs_split_ws s ws Hws). exact Hws.
Qed.

(** X4.  A cleaned name is the whitespace-free runs of the name joined by
    single spaces, where the runs are the maximal ones and so are
    determined by the name.  It keeps the non-whitespace characters in
    order, neither begins nor ends with whitespace, is never longer than
    the name, and cleaning it again changes nothing. *)
Theorem clean_name_spec (v : str) :
  (exists ws, runs v ws
              /\ (forall ws', runs v ws' -> ws' = ws)
              /\ Forall word ws /\ concat ws = non_space v
              /\ clean_name v = join (py " ") ws)
  /\ non_space (clean_name v) = non_space v
  /\ trimmed (clean_name v)
  /\ length (clean_name v) <= length v
  /\ clean_name (clean_name v) = clean_name v.
Proof.
  assert (Hws : Forall word (split_ws [] v)) by (apply split_ws_words; constructor).
  rewrite !clean_name_join. split; [|split; [|split; [|split]]].
  - exists (split_ws [] v). split; [apply runs_of_split_ws|].
    split; [intros ws' H; symmetry; apply runs_split_ws; exact H|].
    split; [exact Hws|]. split; [|reflexivity].
    apply (split_ws_concat [] v).
  - rewrite join_words_non_space by exact Hws. apply (split_ws_concat [] v).
  - apply join_words_trimmed. exact Hws.
  - apply (split_ws_join_length [] v).
  - rewrite split_ws_join by exact Hws. reflexivity.
Qed.

(** The runs of ["ab c"] are ["ab"] and ["c"], not ["a"] and ["bc"]. *)
Example runs_example :
  runs (py "ab c") [py "ab"; py "c"] /\ ~ runs (py "ab c") [py "a"; py "bc"].
Proof.
  split.
  - apply (runs_more [] (py "ab") 32%N (py "c") [py "c"]).
    + constructor.
    + split; [discriminate | repeat constructor].
    + reflexivity.
    + apply (runs_one [] (py "c") []).
      * constructor.
      * split; [discriminate | repeat constructor].
      * constructor.
    + discriminate.
  - intros H. apply runs_split_ws in H. vm_compute in H. discriminate.
Qed.

Lemma clean_name_all_space v : all_space v -> clean_name v = [].
Proof.
  intros Hv. rewrite clean_name_join, split_ws_all_space by exact Hv.
  reflexivity.
Qed.

(** X5.  The length check comes before cleaning: a name of two or more
    characters that are all whitespace passes it, and the validated item
    has the empty name. *)
Theorem whitespace_name_accepted (r : raw_item) :
  2 <= length (raw_item_name r) ->
  all_space (raw_item_name r) ->
  Forall price_ok (raw_price_fields r) ->
  exists m, MenuItem_init r = Ok m /\ item_name m = [].
Proof.
  intros Hlen Hsp Hp. exists (item_of_raw r).
  split; [apply MenuItem_init_ok; assumption|].
  apply clean_name_all_space. exact Hsp.
Qed.

Lemma whitespace_name_accepted_witness :
  2 <= length (raw_item_name (raw_named "  " (Some (10 # 1)) None))
  /\ exists m, MenuItem_init (raw_named "  " (Some (10 # 1)) None) = Ok m
               /\ item_name m = []
               /\ retained (raw_named "  " (Some (10 # 1)) None) = Some m.
Proof.
  assert (Hlen : 2 <= length (raw_item_name (raw_named "  " (Some (10 # 1)) None)))
    by (vm_compute; lia).
  split; [exact Hlen|].
  destruct (whitespace_name_accepted (raw_named "  " (Some (10 # 1)) None) Hlen)
    as (m & Hm & Hname).
  - repeat constructor.
  - repeat constructor; unfold Qle; simpl; lia.
  - exists m. split; [exact Hm|]. split; [exact Hname|].
    unfold retained. rewrite Hm.
    vm_compute in Hm. injection Hm as <-. reflexivity.
Defined.

(** X6.  A validated item takes its category, description and prices
    unchanged from the raw record, its name is the cleaned raw name (no
    longer than it, without whitespace at either end), and it never has a
    currency, a spice level or dietary tags. *)
Theorem validated_item_fields (r : raw_item) (m : MenuItem) :
  MenuItem_init r = Ok m ->
  item_name m = clean_name (raw_item_name r)
  /\ trimmed (item_name m)
  /\ length (item_name m) <= length (raw_item_name r)
  /\ category m = raw_category r
  /\ description m = raw_description r
  /\ price_fields m = raw_price_fields r
  /\ currency m = None /\ spice_level m = None /\ dietary_tags m = [].
Proof.
  intros H. apply MenuItem_init_inv in H as (_ & _ & ->).
  cbn [item_name item_of_raw]. repeat split.
  - apply clean_name_trimmed.
  - apply clean_name_trimmed.
  - apply clean_name_length.
Qed.

Lemma validated_item_fields_witness :
  MenuItem_init raw_dal = Ok (item_of_raw raw_dal)
  /\ item_name (item_of_raw raw_dal) = py "Dal"
  /\ currency (item_of_raw raw_dal) = None.
Proof.
  assert (H : MenuItem_init raw_dal = Ok (item_of_raw raw_dal)) by reflexivity.
  destruct (validated_item_fields raw_dal (item_of_raw raw_dal) H)
    as (Hn & _ & _ & _ & _ & _ & Hc & _).
  split; [exact H|]. split; [rewrite Hn; reflexivity | exact Hc].
Defined.

(** ** [validate_currency] *)

Lemma valid_currencies_short : Forall (fun c => length c <= 3) valid_currencies.
Proof. unfold valid_currencies. repeat constructor. Qed.

(** X7.  [validate_currency] keeps a currency string exactly when it has at
    most three characters and replaces any longer one by [None]; every
    listed currency has at most three characters, so the list never
    decides. *)
Theorem validate_currency_spec :
  validate_currency None = None
  /\ (forall c, validate_currency (Some c) =
                if length c <=? 3 then Some c else None)
  /\ Forall (fun c => validate_currency (Some c) = Some c) valid_currencies.
Proof.
  assert (Hspec : forall c, validate_currency (Some c) =
                            if length c <=? 3 then Some c else None).
  { intros c. unfold validate_currency.
    destruct (Nat.leb_spec (length c) 3) as [Hle|Hgt].
    - rewrite orb_true_r. reflexivity.
    - rewrite orb_false_r.
      destruct (bool_decide (c ∈ valid_currencies)) eqn:E; [|reflexivity].
      apply bool_decide_eq_true in E.
      pose proof valid_currencies_short as Hs. rewrite Forall_forall in Hs.
      specialize (Hs c E). lia. }
  split; [reflexivity|]. split; [exact Hspec|].
  eapply Forall_impl; [apply valid_currencies_short|].
  intros c Hc. simpl in Hc. rewrite Hspec.
  apply Nat.leb_le in Hc. rewrite Hc. reflexivity.
Qed.

(** ** [get_primary_price] *)

Lemma py_or_cases a b :
  (truthy a = true /\ py_or a b = a) \/ (truthy a = false /\ py_or a b = b).
Proof. unfold py_or. destruct (truthy a); auto. Qed.

Lemma get_primary_price_cases m :
  (Exists (fun v => truthy v = true /\ get_primary_price m = v) (price_fields m))
  \/ (falsy_prices (price_fields m) /\ get_primary_price m = small_price m).
Proof.
  unfold get_primary_price, price_fields, falsy_prices.
  destruct (py_or_cases (price m)
              (py_or (full_plate_price m)
                 (py_or (half_plate_price m)
                    (py_or (large_price m)
                       (py_or (medium_price m) (small_price m))))))
    as [[T1 ->]|[T1 ->]]; [left; rewrite !Exists_cons; tauto|].
  destruct (py_or_cases (full_plate_price m)
              (py_or (half_plate_price m)
                 (py_or (large_price m)
                    (py_or (medium_price m) (small_price m)))))
    as [[T2 ->]|[T2 ->]]; [left; rewrite !Exists_cons; tauto|].
  destruct (py_or_cases (half_plate_price m)
              (py_or (large_price m)
                 (py_or (medium_price m) (small_price m))))
    as [[T3 ->]|[T3 ->]]; [left; rewrite !Exists_cons; tauto|].
  destruct (py_or_cases (large_price m)
              (py_or (medium_price m) (small_price m)))
    as [[T4 ->]|[T4 ->]]; [left; rewrite !Exists_cons; tauto|].
  destruct (py_or_cases (medium_price m) (small_price m))
    as [[T5 ->]|[T5 ->]]; [left; rewrite !Exists_cons; tauto|].
  destruct (truthy (small_price m)) eqn:T6.
  - left. rewrite !Exists_cons. tauto.
  - right. split; [|reflexivity]. repeat constructor; assumption.
Qed.

Lemma get_primary_price_in m :
  get_primary_price m ∈ price_fields m.
Proof.
  destruct (get_primary_price_cases m) as [H|[_ ->]].
  - apply Exists_exists in H as (v & Hin & _ & ->). exact Hin.
  - unfold price_fields. set_solver.
Qed.

(** X8.  [get_primary_price] returns one of the item's six price fields.
    It returns a non-zero price exactly when some price field holds one;
    when every field is null or 0 it returns [small_price] as it is, and so
    [None] for an item without any price. *)
Theorem get_primary_price_truthy (m : MenuItem) :
  get_primary_price m ∈ price_fields m
  /\ (truthy (get_primary_price m) = true <->
      Exists (fun v => truthy v = true) (price_fields m))
  /\ (falsy_prices (price_fields m) -> get_primary_price m = small_price m)
  /\ (has_any_price m = false -> get_primary_price m = None).
Proof.
  split; [apply get_primary_price_in|].
  assert (Hfalsy : falsy_prices (price_fields m) ->
                   get_primary_price m = small_price m).
  { intros Hf. destruct (get_primary_price_cases m) as [H|[_ H]]; [|exact H].
    apply Exists_exists in H as (v & Hin & Hv & _).
    unfold falsy_prices in Hf. rewrite Forall_forall in Hf.
    specialize (Hf v Hin). congruence. }
  split; [|split; [exact Hfalsy|]].
  - split.
    + intros Ht. apply Exists_exists. exists (get_primary_price m).
      split; [apply get_primary_price_in | exact Ht].
    + intros Hex. destruct (get_primary_price_cases m) as [H|[Hf _]].
      * apply Exists_exists in H as (v & _ & Hv & ->). exact Hv.
      * apply Exists_exists in Hex as (v & Hin & Hv).
        unfold falsy_prices in Hf. rewrite Forall_forall in Hf.
        specialize (Hf v Hin). congruence.
  - intros Hp. apply has_any_price_spec in Hp.
    assert (Hf : falsy_prices (price_fields m)).
    { eapply Forall_impl; [exact Hp|]. intros v ->. reflexivity. }
    rewrite (Hfalsy Hf).
    unfold price_fields in Hp. rewrite Forall_forall in Hp.
    apply Hp. set_solver.
Qed.

Lemma get_primary_price_truthy_witness :
  falsy_prices (price_fields (item_of_raw raw_soda))
  /\ get_primary_price (item_of_raw raw_soda) = None
  /\ truthy (get_primary_price (item_of_raw raw_water)) = true.
Proof.
  assert (Hf : falsy_prices (price_fields (item_of_raw raw_soda)))
    by (repeat constructor).
  destruct (get_primary_price_truthy (item_of_raw raw_soda)) as (_ & _ & Hs & _).
  destruct (get_primary_price_truthy (item_of_raw raw_water)) as (_ & Ht & _).
  split; [exact Hf|]. split; [rewrite (Hs Hf); reflexivity|].
  apply Ht. unfold price_fields. apply Exists_cons_tl, Exists_cons_tl, Exists_cons_hd.
  reflexivity.
Defined.

(** ** [get_price_display] and [to_dataframe] *)

Lemma join_contains (x : char) sep parts :
  parts <> [] -> Forall (fun p => x ∈ p) parts -> x ∈ join sep parts.
Proof.
  intros Hne Hall. destruct Hall as [|p ps Hp _]; [congruence|].
  destruct ps as [|q ps]; [exact Hp|].
  rewrite join_cons. apply elem_of_app. left. exact Hp.
Qed.

Lemma in_suffix (x : char) a b : x ∈ b -> x ∈ a ++ b.
Proof. intros H. apply elem_of_app. right. exact H. Qed.

Lemma no_price_no_dot : 46%N ∉ py "No price".
Proof.
  apply (proj1 (bool_decide_eq_false (46%N ∈ py "No price"))).
  vm_compute. reflexivity.
Qed.

Lemma format_2f_dot q : 46%N ∈ format_2f q.
Proof.
  unfold format_2f. rewrite !elem_of_app. right. right. left.
  apply list_elem_of_here.
Qed.

Section FormattingProperties.

Variable fmt : Q -> str.

(** Every formatted number has a decimal point. *)
Hypothesis fmt_dot : forall q, 46%N ∈ fmt q.

Lemma append_part_dot parts label symbol v :
  Forall (fun p => 46%N ∈ p) parts ->
  Forall (fun p => 46%N ∈ p) (append_part fmt parts label symbol v).
Proof.
  intros H. destruct v as [x|]; [|exact H]. cbn [append_part].
  apply Forall_app. split; [exact H|]. constructor; [|constructor].
  do 3 apply in_suffix. apply fmt_dot.
Qed.

Lemma append_part_not_nil parts label symbol v :
  parts <> [] \/ v <> None -> append_part fmt parts label symbol v <> [].
Proof.
  destruct v as [x|]; simpl.
  - intros _ E. apply app_eq_nil in E as [_ E]. discriminate.
  - intros [H|H]; congruence.
Qed.

Lemma price_display_dot m :
  has_any_price m = true -> 46%N ∈ get_price_display fmt m.
Proof.
  intros Hp. unfold get_price_display.
  destruct (price m) as [p|] eqn:E1.
  { apply in_suffix, fmt_dot. }
  set (symbol := str_or (currency m) (py "$")).
  set (parts :=
         append_part fmt
           (append_part fmt
              (append_part fmt
                 (append_part fmt
                    (append_part fmt [] "Half" symbol (half_plate_price m))
                    "Full" symbol (full_plate_price m))
                 "Small" symbol (small_price m))
              "Medium" symbol (medium_price m))
           "Large" symbol (large_price m)).
  assert (Hdot : Forall (fun p => 46%N ∈ p) parts).
  { subst parts. repeat apply append_part_dot. constructor. }
  assert (Hne : parts <> []).
  { subst parts. unfold has_any_price, any in Hp. rewrite E1 in Hp. simpl in Hp.
    destruct (large_price m) eqn:E6;
      [apply append_part_not_nil; right; discriminate|].
    destruct (medium_price m) eqn:E5;
      [apply append_part_not_nil; left;
       apply append_part_not_nil; right; discriminate|].
    destruct (small_price m) eqn:E4;
      [do 2 (apply append_part_not_nil; left);
       apply append_part_not_nil; right; discriminate|].
    destruct (full_plate_price m) eqn:E3;
      [do 3 (apply append_part_not_nil; left);
       apply append_part_not_nil; right; discriminate|].
    destruct (half_plate_price m) eqn:E2;
      [do 4 (apply append_part_not_nil; left);
       apply append_part_not_nil; right; discriminate|].
    discriminate. }
  destruct parts as [|p ps] eqn:E; [congruence|].
  apply join_contains; [discriminate | exact Hdot].
Qed.

Lemma price_display_no_price m :
  has_any_price m = false -> get_price_display fmt m = py "No price".
Proof.
  intros Hp. apply has_any_price_spec in Hp. unfold price_fields in Hp.
  repeat match goal with
         | H : Forall _ (_ :: _) |- _ => apply Forall_cons in H; destruct H
         end.
  unfold get_price_display.
  repeat match goal with H : _ = None |- _ => rewrite H; clear H end.
  reflexivity.
Qed.

(** X9.  The display string is ["No price"] exactly when the item has no
    price; a price of 0 is displayed like any other.  When the single
    price is set, the display is the currency symbol (["$"] without a
    currency) followed by that price alone, whatever the other fields
    hold. *)
Theorem price_display_no_price_iff (m : MenuItem) :
  (get_price_display fmt m = py "No price" <-> has_any_price m = false)
  /\ (forall p, price m = Some p ->
        get_price_display fmt m = str_or (currency m) (py "$") ++ fmt p)
  /\ str_or (currency m) (py "$") <> [].
Proof.
  split; [|split].
  - split; [|apply price_display_no_price].
    intros Hd. destruct (has_any_price m) eqn:Hp; [|reflexivity].
    pose proof (price_display_dot m Hp) as Hdot. rewrite Hd in Hdot.
    exfalso. exact (no_price_no_dot Hdot).
  - intros p Hp. unfold get_price_display. rewrite Hp. reflexivity.
  - unfold str_or. destruct (currency m) as [[|c s]|]; discriminate.
Qed.

(** X10.  [to_dataframe] gives a frame without columns and rows for a menu
    without items; otherwise it has the 13 columns of [column_order], and
    one row per item in the order of the items.  A row whose item has a
    price never displays ["No price"], and the row's currency is the
    item's, or the menu's detected currency when the item has none. *)
Theorem to_dataframe_shape (md : MenuData) :
  (items md = [] ->
   to_dataframe fmt md = {| df_columns := []; df_rows := [] |})
  /\ (items md <> [] ->
      df_columns (to_dataframe fmt md) = column_order
      /\ length (df_columns (to_dataframe fmt md)) = 13)
  /\ df_rows (to_dataframe fmt md) = map (row_of fmt md) (items md)
  /\ length (df_rows (to_dataframe fmt md)) = length (items md)
  /\ (forall i, has_any_price i = true ->
        row_price_display (row_of fmt md i) <> py "No price")
  /\ (forall i, currency i = None ->
        row_currency (row_of fmt md i) = detected_currency md).
Proof.
  unfold to_dataframe.
  destruct (items md) as [|i l] eqn:E.
  - split; [reflexivity|]. split; [congruence|]. repeat split.
    + intros i Hp Hd. cbn [row_price_display row_of] in Hd.
      pose proof (price_display_dot i Hp) as Hdot. rewrite Hd in Hdot.
      exact (no_price_no_dot Hdot).
    + intros i Hc. cbn [row_currency row_of]. rewrite Hc. reflexivity.
  - split; [discriminate|]. split; [intros _; split; reflexivity|].
    split; [reflexivity|]. split; [cbn [df_rows]; apply length_map|].
    split.
    + intros j Hp Hd. cbn [row_price_display row_of] in Hd.
      pose proof (price_display_dot j Hp) as Hdot. rewrite Hd in Hdot.
      exact (no_price_no_dot Hdot).
    + intros j Hc. cbn [row_currency row_of]. rewrite Hc. reflexivity.
Qed.

End FormattingProperties.

Lemma price_display_no_price_iff_witness :
  get_price_display format_2f (item_of_raw raw_soda) = py "$0.00"
  /\ get_price_display format_2f (item_of_raw raw_bread) = py "No price"
  /\ has_any_price (item_of_raw raw_bread) = false.
Proof.
  destruct (price_display_no_price_iff format_2f format_2f_dot
              (item_of_raw raw_soda)) as (_ & Hsingle & _).
  destruct (price_display_no_price_iff format_2f format_2f_dot
              (item_of_raw raw_bread)) as (Hiff & _ & _).
  split; [rewrite (Hsingle (0 # 1) eq_refl); reflexivity|].
  split; [|reflexivity]. apply Hiff. reflexivity.
Defined.

Lemma to_dataframe_shape_witness :
  items (menu_of [raw_tea; raw_dal]) <> []
  /\ length (df_columns (to_dataframe format_2f (menu_of [raw_tea; raw_dal]))) = 13
  /\ map row_price_display
       (df_rows (to_dataframe format_2f (menu_of [raw_tea; raw_dal])))
     = [py "$10.00"; py "$99999.99"].
Proof.
  assert (Hne : items (menu_of [raw_tea; raw_dal]) <> []) by discriminate.
  destruct (to_dataframe_shape format_2f format_2f_dot (menu_of [raw_tea; raw_dal]))
    as (_ & Hcols & Hrows & _).
  split; [exact Hne|]. split; [exact (proj2 (Hcols Hne))|].
  rewrite Hrows. vm_compute. reflexivity.
Defined.

(** ** More on the validation loop *)

Lemma retained_item_of_raw r m : retained r = Some m -> m = item_of_raw r.
Proof.
  unfold retained. destruct (MenuItem_init r) as [obj|e] eqn:E; [|discriminate].
  destruct (has_any_price obj); [|discriminate]. intros [= <-].
  apply MenuItem_init_inv in E as (_ & _ & ->). reflexivity.
Qed.

Lemma omap_retained_sublist l :
  omap retained l `sublist_of` map item_of_raw l.
Proof.
  induction l as [|r l IH]; [constructor|]. csimpl.
  destruct (retained r) as [m|] eqn:E.
  - rewrite (retained_item_of_raw r m E). apply sublist_skip. exact IH.
  - apply sublist_cons. exact IH.
Qed.


(** X11.  The validation loop works record by record: the valid items of a
    concatenation are the valid items of its parts, in order, so the items
    of several chunks are those of each chunk one after the other.  It
    never yields more items than records, and each item it yields is the
    item built from one of the records, in the order of the records. *)
Theorem validate_loop_app (l1 l2 : list raw_item) (valid_items : list MenuItem) :
  validate_loop (l1 ++ l2) valid_items =
  validate_loop l2 (validate_loop l1 valid_items)
  /\ validate_loop (l1 ++ l2) [] = validate_loop l1 [] ++ validate_loop l2 []
  /\ length (validate_loop l1 []) <= length l1
  /\ validate_loop l1 [] `sublist_of` map item_of_raw l1.
Proof.
  rewrite !validate_loop_acc, omap_app. simpl.
  split; [rewrite app_assoc; reflexivity|].
  split; [reflexivity|].
  split; [apply omap_length_le | apply omap_retained_sublist].
Qed.

(** ** More on the retry loop and the orchestrator *)

Lemma calls_app t1 t2 : calls (t1 ++ t2) = calls t1 ++ calls t2.
Proof. apply omap_app. Qed.

Lemma sleeps_app t1 t2 : sleeps (t1 ++ t2) = sleeps t1 ++ sleeps t2.
Proof. apply omap_app. Qed.

Lemma calls_backoff_trace chunk k backoff :
  calls (backoff_trace chunk k backoff) = replicate k chunk.
Proof.
  revert backoff. induction k as [|k IH]; intros backoff; [reflexivity|].
  simpl. unfold calls in *. csimpl. rewrite IH. reflexivity.
Qed.

Lemma calls_attempts_trace chunk k :
  calls (attempts_trace chunk k) = replicate k chunk.
Proof.
  destruct k as [|k]; [reflexivity|].
  simpl. unfold calls. csimpl. f_equal. apply calls_backoff_trace.
Qed.

Lemma sleeps_attempts_trace chunk k :
  1 <= k <= 3 -> list_sum (sleeps (attempts_trace chunk k)) <= 3.
Proof.
  intros Hk.
  assert (Hc : k = 1 \/ k = 2 \/ k = 3) by lia.
  destruct Hc as [-> | [-> | ->]]; vm_compute; lia.
Qed.

Section ParserMore.

Variable World : Type.
Variable llm : str -> World -> result llm_data * World.
Variable normalize : str -> str.

Lemma call_llm_with_retries_shape chunk (s : io World) :
  exists k r w,
    1 <= k <= 3
    /\ _call_llm_with_retries llm chunk s =
       (r, {| world := w; trace := trace s ++ attempts_trace chunk k |}).
Proof.
  destruct (call_llm_with_retries_cases World llm chunk s)
    as [(d & w & E)|[(d & w & E)|(r & w & E)]].
  - exists 1, (Some d), w. split; [lia | exact E].
  - exists 2, (Some d), w. split; [lia | exact E].
  - exists 3, r, w. split; [lia | exact E].
Qed.

Lemma collect_loop_trace chunks all_items (s : io World) :
  exists ks,
    length ks = length chunks
    /\ Forall (fun k => 1 <= k <= 3) ks
    /\ trace (snd (collect_loop llm chunks all_items s)) =
       trace s ++ concat (zip_with attempts_trace chunks ks).
Proof.
  revert all_items s. induction chunks as [|chunk rest IH]; intros all_items s.
  - exists []. simpl. rewrite app_nil_r. repeat split. constructor.
  - simpl.
    destruct (call_llm_with_retries_shape chunk s) as (k & r & w & Hk & E).
    rewrite E.
    destruct (IH (extend_parsed all_items r)
                {| world := w; trace := trace s ++ attempts_trace chunk k |})
      as (ks & Hlen & Hks & Ht).
    exists (k :: ks). split; [simpl; lia|]. split; [constructor; assumption|].
    rewrite Ht. cbn [trace zip_with concat]. rewrite <- app_assoc. reflexivity.
Qed.

Lemma parse_menu_snd text name (s : io World) :
  snd (parse_menu llm normalize text name s) =
  snd (collect_loop llm (_chunk_text (normalize text)) [] s).
Proof.
  unfold parse_menu.
  destruct (collect_loop llm (_chunk_text (normalize text)) [] s). reflexivity.
Qed.

Lemma calls_zip chunks ks :
  calls (concat (zip_with attempts_trace chunks ks)) =
  concat (zip_with (fun c k => replicate k c) chunks ks).
Proof.
  revert ks. induction chunks as [|c chunks IH]; intros [|k ks]; try reflexivity.
  cbn [zip_with concat]. rewrite calls_app, calls_attempts_trace, IH.
  reflexivity.
Qed.

Lemma replicate_zip_length (chunks : list str) ks :
  length ks = length chunks ->
  Forall (fun k => 1 <= k <= 3) ks ->
  length chunks <= length (concat (zip_with (fun c k => replicate k c) chunks ks))
  /\ length (concat (zip_with (fun c k => replicate k c) chunks ks))
     <= 3 * length chunks.
Proof.
  revert ks. induction chunks as [|c chunks IH]; intros [|k ks] Hlen Hks;
    try discriminate; [simpl; lia|].
  apply Forall_cons in Hks as [Hk Hks].
  cbn [zip_with concat]. rewrite length_app, length_replicate.
  destruct (IH ks) as [H1 H2]; [simpl in Hlen; lia | exact Hks|].
  cbn [length]. lia.
Qed.

Lemma sleeps_zip (chunks : list str) ks :
  length ks = length chunks ->
  Forall (fun k => 1 <= k <= 3) ks ->
  list_sum (sleeps (concat (zip_with attempts_trace chunks ks)))
  <= 3 * length chunks.
Proof.
  revert ks. induction chunks as [|c chunks IH]; intros [|k ks] Hlen Hks;
    try discriminate; [simpl; lia|].
  apply Forall_cons in Hks as [Hk Hks].
  cbn [zip_with concat]. rewrite sleeps_app, list_sum_app.
  pose proof (sleeps_attempts_trace c k Hk).
  assert (Hl : length ks = length chunks) by (cbn [length] in Hlen; lia).
  specialize (IH ks Hl Hks). cbn [length]. lia.
Qed.

(** X12.  [parse_menu] calls the client on the chunks in order, each chunk
    between one and three times in a row: at least once in all, even for
    an empty text, and at most three times the number of chunks.  The time
    slept is at most 3 units per chunk. *)
Theorem parse_menu_calls text name (s : io World) :
  let chunks := _chunk_text (normalize text) in
  exists t ks,
    trace (snd (parse_menu llm normalize text name s)) = trace s ++ t
    /\ length ks = length chunks
    /\ Forall (fun k => 1 <= k <= 3) ks
    /\ calls t = concat (zip_with (fun c k => replicate k c) chunks ks)
    /\ 1 <= length (calls t)
    /\ length chunks <= length (calls t) <= 3 * length chunks
    /\ list_sum (sleeps t) <= 3 * length chunks.
Proof.
  intros chunks. rewrite parse_menu_snd. fold chunks.
  destruct (collect_loop_trace chunks [] s) as (ks & Hlen & Hks & Ht).
  exists (concat (zip_with attempts_trace chunks ks)), ks.
  pose proof (replicate_zip_length chunks ks Hlen Hks) as [H1 H2].
  assert (Hn : 1 <= length chunks).
  { subst chunks. destruct (le_lt_dec (length (normalize text)) max_chars) as [Hle|Hlt].
    - rewrite chunk_text_short by exact Hle. simpl. lia.
    - rewrite chunk_text_long by exact Hlt.
      rewrite length_map, segment_loop_count, Nat.sub_0_r.
      pose proof (ceil_div_large _ _ max_chars_pos Hlt). lia. }
  rewrite calls_zip.
  split; [exact Ht|]. split; [exact Hlen|]. split; [exact Hks|].
  split; [reflexivity|]. split; [lia|]. split; [lia|].
  apply sleeps_zip; assumption.
Qed.

Lemma call_llm_with_retries_first chunk (s : io World) d w :
  llm chunk (world s) = (Ok d, w) ->
  _call_llm_with_retries llm chunk s =
  (Some d, {| world := w; trace := trace s ++ [EvCall chunk] |}).
Proof.
  intros H. unfold _call_llm_with_retries.
  change (seq 1 max_retries) with [1; 2; 3].
  rewrite retry_loop_cons, H. reflexivity.
Qed.

(** X13.  The retry loop stops at the first attempt that succeeds: a
    success at once costs one call and no sleep, a success after one
    failure costs two calls and a sleep of 1, and in both cases the data of
    that attempt is returned. *)
Theorem call_llm_with_retries_stops chunk (s : io World) :
  (forall d w,
      llm chunk (world s) = (Ok d, w) ->
      _call_llm_with_retries llm chunk s =
      (Some d, {| world := w; trace := trace s ++ [EvCall chunk] |}))
  /\ (forall e1 w1 d w2,
        llm chunk (world s) = (Raise e1, w1) ->
        llm chunk w1 = (Ok d, w2) ->
        _call_llm_with_retries llm chunk s =
        (Some d,
         {| world := w2;
            trace := trace s ++ [EvCall chunk; EvSleep 1; EvCall chunk] |})).
Proof.
  split; [intros d w; apply call_llm_with_retries_first|].
  intros e1 w1 d w2 H1 H2. unfold _call_llm_with_retries.
  change (seq 1 max_retries) with [1; 2; 3].
  rewrite retry_loop_cons, H1.
  change (1 =? max_retries) with false. cbv iota.
  rewrite retry_loop_cons. cbn [world trace]. rewrite H2.
  rewrite <- !app_assoc. reflexivity.
Qed.

Lemma collect_loop_reliable chunks all_items (s : io World) :
  (forall c w, is_ok (fst (llm c w)) = true) ->
  trace (snd (collect_loop llm chunks all_items s)) =
  trace s ++ map EvCall chunks.
Proof.
  intros Hok. revert all_items s.
  induction chunks as [|chunk rest IH]; intros all_items s.
  - simpl. rewrite app_nil_r. reflexivity.
  - simpl. pose proof (Hok chunk (world s)) as H.
    destruct (llm chunk (world s)) as [[d|e] w] eqn:E; [|discriminate].
    rewrite (call_llm_with_retries_first chunk s d w E).
    rewrite IH. cbn [trace]. rewrite <- app_assoc. reflexivity.
Qed.

(** X14.  With a client that never fails, [parse_menu] makes exactly one
    call per chunk, in the order of the chunks, and never sleeps. *)
Theorem parse_menu_reliable_client text name (s : io World) :
  (forall c w, is_ok (fst (llm c w)) = true) ->
  trace (snd (parse_menu llm normalize text name s)) =
  trace s ++ map EvCall (_chunk_text (normalize text)).
Proof.
  intros Hok. rewrite parse_menu_snd. apply collect_loop_reliable. exact Hok.
Qed.




End ParserMore.

Lemma call_llm_with_retries_stops_witness :
  _call_llm_with_retries tea_client (py "Tea 10") io0 =
  (Some {| data_items := [raw_tea] |},
   {| world := 1; trace := [EvCall (py "Tea 10")] |})
  /\ _call_llm_with_retries flaky_client (py "Tea 10")
       {| world := 1; trace := [] |} =
     (Some {| data_items := [raw_tea] |},
      {| world := 3;
         trace := [EvCall (py "Tea 10"); EvSleep 1; EvCall (py "Tea 10")] |}).
Proof.
  split.
  - destruct (call_llm_with_retries_stops nat tea_client (py "Tea 10") io0)
      as [H _].
    apply (H _ 1). reflexivity.
  - destruct (call_llm_with_retries_stops nat flaky_client (py "Tea 10")
                {| world := 1; trace := [] |}) as [_ H].
    apply (H ClientError 2 _ 3); reflexivity.
Defined.

Lemma parse_menu_reliable_client_witness :
  (forall c w, is_ok (fst (tea_client c w)) = true)
  /\ trace (snd (parse_menu tea_client (fun t => t) (py "Tea 10") None io0)) =
     [EvCall (py "Tea 10")].
Proof.
  assert (Hok : forall c w, is_ok (fst (tea_client c w)) = true)
    by (intros c w; reflexivity).
  split; [exact Hok|].
  rewrite (parse_menu_reliable_client nat tea_client (fun t => t) (py "Tea 10")
             None io0 Hok).
  reflexivity.
Defined.

(** ** More on the summary *)

Lemma histogram_total_comm (j1 j2 : str) (z1 z2 y : nat) :
  z1 + (z2 + y) = z2 + (z1 + y).
Proof. lia. Qed.

Lemma histogram_total_bump (m : gmap str nat) k :
  histogram_total (<[k := default 0 (m !! k) + 1]> m) = histogram_total m + 1.
Proof.
  unfold histogram_total. destruct (m !! k) as [v|] eqn:E; simpl.
  - rewrite <- insert_delete_eq.
    rewrite map_fold_insert_L;
      [|intros; apply histogram_total_comm; assumption | apply lookup_delete_eq].
    rewrite (map_fold_delete_L _ _ k v m);
      [lia | intros; apply histogram_total_comm; assumption | exact E].
  - rewrite map_fold_insert_L;
      [lia | intros; apply histogram_total_comm; assumption | exact E].
Qed.

Lemma summary_fold_histogram l st :
  histogram_total (categories (fold_left summary_step l st)) =
  histogram_total (categories st) + length l.
Proof.
  revert st. induction l as [|i l IH]; intros st; [simpl; lia|].
  cbn [fold_left]. rewrite IH.
  assert (Hcat : categories (summary_step st i) =
                 <[effective_category i :=
                     default 0 (categories st !! effective_category i) + 1]>
                   (categories st)).
  { unfold summary_step. destruct (has_any_price i); reflexivity. }
  rewrite Hcat, histogram_total_bump. cbn [length]. lia.
Qed.

Lemma get_summary_price_range md :
  summary_price_range (get_summary md) =
  price_range_of (omap summary_price (items md)).
Proof.
  unfold get_summary. cbn [summary_price_range].
  rewrite summary_fold_prices. reflexivity.
Qed.

Lemma filter_length_le {A} (P : A -> Prop) `{forall x, Decision (P x)} (l : list A) :
  length (filter P l) <= length l.
Proof.
  induction l as [|a l IH]; [reflexivity|].
  rewrite filter_cons. destruct (decide (P a)); simpl; lia.
Qed.

Lemma omap_summary_price_length l :
  length (omap summary_price l) <=
  length (filter (fun i => has_any_price i = true) l).
Proof.
  induction l as [|i l IH]; [reflexivity|].
  rewrite filter_cons. csimpl. unfold summary_price at 1.
  destruct (has_any_price i).
  - destruct (decide (true = true)); [|congruence].
    destruct (truthy (get_primary_price i)); [|simpl; lia].
    destruct (get_primary_price i); simpl; lia.
  - destruct (decide (false = true)); [discriminate | exact IH].
Qed.

(** X16.  In the summary, [total_items] is the number of items, the counts
    of the category histogram add up to it, [items_with_prices] never
    exceeds it, and the currency is the menu's detected currency.  With no
    priced item the price range has neither min, max nor avg. *)
Theorem get_summary_counts (md : MenuData) :
  summary_total_items (get_summary md) = length (items md)
  /\ histogram_total (summary_categories (get_summary md)) = length (items md)
  /\ summary_items_with_prices (get_summary md) <= length (items md)
  /\ summary_currency (get_summary md) = detected_currency md
  /\ (summary_items_with_prices (get_summary md) = 0 ->
      summary_price_range (get_summary md) =
      {| range_min := None; range_max := None; range_avg := None |}).
Proof.
  split; [reflexivity|]. split; [|split; [|split; [reflexivity|]]].
  - unfold get_summary. cbn [summary_categories].
    rewrite summary_fold_histogram. cbn [categories].
    unfold histogram_total. rewrite map_fold_empty. reflexivity.
  - unfold get_summary. cbn [summary_items_with_prices].
    rewrite summary_fold_total. cbn [total_with_prices].
    apply filter_length_le.
  - rewrite get_summary_price_range.
    unfold get_summary. cbn [summary_items_with_prices].
    rewrite summary_fold_total. cbn [total_with_prices]. intros H0.
    pose proof (omap_summary_price_length (items md)) as Hle.
    destruct (omap summary_price (items md)); [reflexivity | simpl in Hle; lia].
Qed.

Lemma get_summary_counts_witness :
  summary_items_with_prices (get_summary (menu_of [raw_bread])) = 0
  /\ summary_price_range (get_summary (menu_of [raw_bread])) =
     {| range_min := None; range_max := None; range_avg := None |}
  /\ histogram_total (summary_categories (get_summary (menu_of [raw_bread]))) = 1.
Proof.
  destruct (get_summary_counts (menu_of [raw_bread])) as (_ & Hh & _ & _ & Hr).
  split; [reflexivity|]. split; [apply Hr; reflexivity | exact Hh].
Defined.

Lemma sum_list_lower m l :
  Forall (fun v => (m <= v)%Q) l ->
  (m * inject_Z (Z.of_nat (length l)) <= sum_list l)%Q.
Proof.
  induction 1 as [|v l Hv _ IH].
  - simpl. rewrite Qmult_0_r. apply Qle_refl.
  - cbn [length sum_list fold_right]. fold (sum_list l).
    rewrite Nat2Z.inj_succ, <- Z.add_1_r, inject_Z_plus, Qmult_plus_distr_r.
    rewrite Qmult_1_r, Qplus_comm. apply Qplus_le_compat; assumption.
Qed.

Lemma sum_list_upper m l :
  Forall (fun v => (v <= m)%Q) l ->
  (sum_list l <= m * inject_Z (Z.of_nat (length l)))%Q.
Proof.
  induction 1 as [|v l Hv _ IH].
  - simpl. rewrite Qmult_0_r. apply Qle_refl.
  - cbn [length sum_list fold_right]. fold (sum_list l).
    rewrite Nat2Z.inj_succ, <- Z.add_1_r, inject_Z_plus, Qmult_plus_distr_r.
    rewrite Qmult_1_r, (Qplus_comm (m * _)). apply Qplus_le_compat; assumption.
Qed.

Lemma length_pos_Q {A} (x : A) l : (0 < inject_Z (Z.of_nat (length (x :: l))))%Q.
Proof. unfold Qlt. simpl. lia. Qed.

Lemma price_range_order x l :
  (py_min x l <= py_sum (x :: l) / inject_Z (Z.of_nat (length (x :: l))))%Q
  /\ (py_sum (x :: l) / inject_Z (Z.of_nat (length (x :: l))) <= py_max x l)%Q.
Proof.
  destruct (py_min_spec x l) as [_ Hmin].
  destruct (py_max_spec x l) as [_ Hmax].
  split.
  - apply Qle_shift_div_l; [apply length_pos_Q|].
    rewrite py_sum_sum_list. apply sum_list_lower. exact Hmin.
  - apply Qle_shift_div_r; [apply length_pos_Q|].
    rewrite py_sum_sum_list. apply sum_list_upper. exact Hmax.
Qed.

(** X17.  The min, max and avg of the price range come together: all are
    null when no item contributes a value, and all are present otherwise.
    The values are the non-zero primary prices of the priced items; min
    and max are two of them, the least and the greatest, so [min <= max].
    When no price field of any item is 0, the values are the primary prices
    (first non-null field) of the items that have a price. *)
Theorem get_summary_range_order (md : MenuData) :
  let vals := omap summary_price (items md) in
  let r := summary_price_range (get_summary md) in
  ((vals = [] /\ range_min r = None /\ range_max r = None /\ range_avg r = None)
   \/ (exists mn mx avg,
         range_min r = Some mn /\ range_max r = Some mx /\ range_avg r = Some avg
         /\ mn ∈ vals /\ mx ∈ vals
         /\ Forall (fun v => (mn <= v)%Q) vals
         /\ Forall (fun v => (v <= mx)%Q) vals
         /\ (mn <= mx)%Q))
  /\ (Forall (fun i => Forall nonzero (price_fields i)) (items md) ->
      vals = spec_price_values md).
Proof.
  intros vals r. subst r vals. rewrite get_summary_price_range. split.
  - destruct (omap summary_price (items md)) as [|x l]; [left; repeat split|].
    right. destruct (py_min_spec x l) as [Hmin1 Hmin2].
    destruct (py_max_spec x l) as [Hmax1 Hmax2].
    exists (py_min x l), (py_max x l),
      (py_sum (x :: l) / inject_Z (Z.of_nat (length (x :: l))))%Q.
    repeat split; try assumption.
    rewrite Forall_forall in Hmin2. apply Hmin2. exact Hmax1.
  - intros Hnz. unfold spec_price_values.
    apply omap_summary_price_spec. exact Hnz.
Qed.

Lemma get_summary_range_order_witness :
  Forall (fun i => Forall nonzero (price_fields i))
    (items (menu_of [raw_tea; raw_dal; raw_bread]))
  /\ omap summary_price (items (menu_of [raw_tea; raw_dal; raw_bread])) =
     [10 # 1; 9999999 # 100]%Q
  /\ spec_price_values (menu_of [raw_tea; raw_dal; raw_bread]) =
     [10 # 1; 9999999 # 100]%Q.
Proof.
  assert (Hnz : Forall (fun i => Forall nonzero (price_fields i))
                  (items (menu_of [raw_tea; raw_dal; raw_bread]))).
  { repeat constructor; simpl; unfold Qeq; simpl; lia. }
  destruct (get_summary_range_order (menu_of [raw_tea; raw_dal; raw_bread]))
    as (_ & Hvals).
  split; [exact Hnz|]. split; [rewrite (Hvals Hnz)|]; reflexivity.
Defined.

(** X25.  The category histogram has, for every key, the number of items
    whose category is that key, an item whose category is null or empty
    being counted under ["Uncategorized"]; a key with no such item is
    absent.  [items_with_prices] is the number of items that have a
    price. *)
Theorem get_summary_histogram (md : MenuData) :
  (forall k,
      summary_categories (get_summary md) !! k =
      match count_category k (items md) with
      | 0 => None
      | S n => Some (S n)
      end)
  /\ (forall i,
        effective_category i =
        match category i with
        | Some (c :: s) => c :: s
        | _ => py "Uncategorized"
        end)
  /\ summary_items_with_prices (get_summary md) =
     length (filter (fun i => has_any_price i = true) (items md)).
Proof.
  split; [|split].
  - intros k. unfold get_summary. cbn [summary_categories].
    rewrite summary_fold_categories. cbn [categories].
    rewrite lookup_empty. reflexivity.
  - intros i. reflexivity.
  - unfold get_summary. cbn [summary_items_with_prices].
    rewrite summary_fold_total. reflexivity.
Qed.

Lemma summary_price_bounds m v :
  Forall price_ok (price_fields m) ->
  summary_price m = Some v ->
  (0 < v /\ v <= 100000 # 1)%Q.
Proof.
  intros Hok Hv. unfold summary_price in Hv.
  destruct (has_any_price m); [|discriminate].
  destruct (truthy (get_primary_price m)) eqn:Ht; [|discriminate].
  rewrite Hv in Ht. pose proof (get_primary_price_in m) as Hin.
  rewrite Hv in Hin. rewrite Forall_forall in Hok.
  destruct (Hok _ Hin) as [H0 H1]. split; [|exact H1].
  apply Qle_lteq in H0 as [H0|H0]; [exact H0|].
  simpl in Ht. apply negb_true_iff in Ht.
  assert (E : Qeq_bool v 0 = true) by (apply Qeq_bool_iff; symmetry; exact H0).
  congruence.
Qed.

Lemma summary_range_bounds md v :
  Forall (fun m => Forall price_ok (price_fields m)) (items md) ->
  range_min (summary_price_range (get_summary md)) = Some v
  \/ range_max (summary_price_range (get_summary md)) = Some v
  \/ range_avg (summary_price_range (get_summary md)) = Some v ->
  (0 < v /\ v <= 100000 # 1)%Q.
Proof.
  intros Hok. rewrite get_summary_price_range.
  assert (Hvals : Forall (fun v => (0 < v /\ v <= 100000 # 1)%Q)
                    (omap summary_price (items md))).
  { apply Forall_forall. intros x Hx.
    apply list_elem_of_omap in Hx as (m & Hm & Hx).
    rewrite Forall_forall in Hok. exact (summary_price_bounds m x (Hok m Hm) Hx). }
  destruct (omap summary_price (items md)) as [|x l]; cbn.
  { intros [H|[H|H]]; discriminate. }
  rewrite Forall_forall in Hvals.
  destruct (py_min_spec x l) as [Hmin1 Hmin2].
  destruct (py_max_spec x l) as [Hmax1 Hmax2].
  destruct (price_range_order x l) as [Ho1 Ho2].
  intros [H|[H|H]]; injection H as <-.
  - apply Hvals. exact Hmin1.
  - apply Hvals. exact Hmax1.
  - split.
    + eapply Qlt_le_trans; [exact (proj1 (Hvals _ Hmin1)) | exact Ho1].
    + eapply Qle_trans; [exact Ho2 | exact (proj2 (Hvals _ Hmax1))].
Qed.

Lemma retained_price_ok r m :
  retained r = Some m -> Forall price_ok (price_fields m).
Proof.
  unfold retained. destruct (MenuItem_init r) as [obj|e] eqn:E; [|discriminate].
  destruct (has_any_price obj); [|discriminate]. intros [= <-].
  apply MenuItem_init_inv in E as (_ & Hp & ->). exact Hp.
Qed.

Lemma filter_length_all {A} (P : A -> Prop) `{forall x, Decision (P x)} (l : list A) :
  Forall P l -> length (filter P l) = length l.
Proof.
  induction 1 as [|a l Ha _ IH]; [reflexivity|].
  rewrite filter_cons. destruct (decide (P a)); [simpl; lia | contradiction].
Qed.

Section SummaryOfParse.

Variable World : Type.
Variable llm : str -> World -> result llm_data * World.
Variable normalize : str -> str.

(** X18.  In the summary of a menu returned by [parse_menu] every item
    counts as priced, and the min, max and avg of the price range, when
    present, are greater than 0 and at most 100000. *)
Theorem parse_menu_summary text name (s : io World) :
  exists md,
    fst (parse_menu llm normalize text name s) = Ok md
    /\ summary_total_items (get_summary md) = total_items md
    /\ summary_items_with_prices (get_summary md) = total_items md
    /\ forall v,
         range_min (summary_price_range (get_summary md)) = Some v
         \/ range_max (summary_price_range (get_summary md)) = Some v
         \/ range_avg (summary_price_range (get_summary md)) = Some v ->
         (0 < v /\ v <= 100000 # 1)%Q.
Proof.
  eexists. split; [apply parse_menu_ok|].
  set (all_items := fst (collect_loop llm (_chunk_text (normalize text)) [] s)).
  cbv zeta. split; [reflexivity|]. split.
  - unfold get_summary. cbn [summary_items_with_prices items total_items].
    rewrite summary_fold_total. cbn [total_with_prices].
    apply filter_length_all. apply Forall_forall. intros m Hm.
    apply list_elem_of_omap in Hm as (r & _ & Hr).
    exact (retained_has_price r m Hr).
  - intros v. apply summary_range_bounds. cbn [items].
    apply Forall_forall. intros m Hm.
    apply list_elem_of_omap in Hm as (r & _ & Hr).
    exact (retained_price_ok r m Hr).
Qed.

End SummaryOfParse.

(** ** The image extractor *)

Lemma ocr_loop_acc lines extracted_lines :
  ocr_loop lines extracted_lines =
  extracted_lines
    ++ map line_text
         (List.filter (fun l => Qltb (6 # 10) (line_confidence l)) lines).
Proof.
  revert extracted_lines.
  induction lines as [|line rest IH]; intros extracted_lines; simpl.
  - symmetry. apply app_nil_r.
  - destruct (Qltb (6 # 10) (line_confidence line)); [|apply IH].
    rewrite IH, <- app_assoc. reflexivity.
Qed.

Lemma filter_none {A} (f : A -> bool) l :
  Forall (fun a => f a = false) l -> List.filter f l = [].
Proof.
  induction 1 as [|a l Ha _ IH]; [reflexivity|]. simpl. rewrite Ha. exact IH.
Qed.

Lemma Qltb_le_false x y : (y <= x)%Q -> Qltb x y = false.
Proof.
  intros H. unfold Qltb. apply negb_false_iff, Qle_bool_iff. exact H.
Qed.

(** X19.  The OCR text is the text of the lines whose confidence is above
    0.6, in order and joined by newlines; a confidence of exactly 0.6 does
    not pass.  It is empty when the engine returns nothing, an empty list,
    or nothing for the first image, and when no line passes. *)
Theorem ocr_text_spec :
  (forall lines rest,
      ocr_text (Some (Some lines :: rest)) =
      join [10%N]
        (map line_text
           (List.filter (fun l => Qltb (6 # 10) (line_confidence l)) lines)))
  /\ ocr_text None = []
  /\ ocr_text (Some []) = []
  /\ (forall rest, ocr_text (Some (None :: rest)) = [])
  /\ (forall lines rest,
        Forall (fun l => (line_confidence l <= 6 # 10)%Q) lines ->
        ocr_text (Some (Some lines :: rest)) = []).
Proof.
  assert (H : forall lines rest,
             ocr_text (Some (Some lines :: rest)) =
             join [10%N]
               (map line_text
                  (List.filter (fun l => Qltb (6 # 10) (line_confidence l)) lines))).
  { intros [|line lines] rest; [reflexivity|].
    unfold ocr_text. rewrite ocr_loop_acc. reflexivity. }
  split; [exact H|]. repeat split.
  intros lines rest Hlow. rewrite H, filter_none; [reflexivity|].
  eapply Forall_impl; [exact Hlow|]. intros l Hl. apply Qltb_le_false. exact Hl.
Qed.

Lemma ocr_text_spec_witness :
  ocr_text (Some [Some [ {| line_text := py "Tea 10"; line_confidence := 9 # 10 |};
                         {| line_text := py "smudge"; line_confidence := 6 # 10 |};
                         {| line_text := py "Dal 20"; line_confidence := 7 # 10 |} ]])
  = py "Tea 10" ++ [10%N] ++ py "Dal 20"
  /\ ocr_text (Some [Some [ {| line_text := py "smudge";
                               line_confidence := 6 # 10 |} ]]) = [].
Proof.
  destruct ocr_text_spec as (Hkeep & _ & _ & _ & Hlow).
  split; [rewrite Hkeep; reflexivity|].
  apply Hlow. repeat constructor. simpl. apply Qle_refl.
Defined.

Section ImageExtractorProperties.

Variable lower : str -> str.
Variable image_open : path -> str + image.
Variable convert_rgb : image -> str + image.
Variable ocr : image -> str + ocr_result.

Lemma extract_try_ok p d :
  extract_try image_open convert_rgb ocr p = inr d ->
  ex_success d = (0 <? length (ex_text d))
  /\ ex_char_count d = Some (length (ex_text d))
  /\ ex_error d = None
  /\ ex_image_size d <> None
  /\ ex_source_file d = path_name p
  /\ ex_extraction_method d = py "ocr".
Proof.
  unfold extract_try.
  destruct (image_open p) as [e|img]; [discriminate|].
  destruct (if bool_decide (image_mode img = py "RGB") then inr img
            else convert_rgb img) as [e|img']; [discriminate|].
  destruct (_run_ocr ocr img') as [e|text]; [discriminate|].
  intros [= <-]. cbn. repeat split. discriminate.
Qed.

(** X20.  [extract_text] raises [FileNotFoundError] exactly when the file
    does not exist, and [ValueError] exactly when it exists and its
    lower-cased suffix is not a supported format.  Otherwise it returns a
    dictionary, whatever goes wrong while opening, converting or reading
    the image: [success] is true exactly when the text is non-empty, a
    successful result carries the character count and no error, and a
    result with an error has the empty text and [success] false. *)
Theorem extract_text_outcomes (p : path) :
  (extract_text lower image_open convert_rgb ocr p = RaisedFileNotFoundError
   <-> path_exists p = false)
  /\ (extract_text lower image_open convert_rgb ocr p = RaisedValueError
      <-> path_exists p = true /\ lower (path_suffix p) ∉ supported_formats)
  /\ (path_exists p = true ->
      lower (path_suffix p) ∈ supported_formats ->
      exists d,
        extract_text lower image_open convert_rgb ocr p = Extracted d
        /\ (ex_success d = true <-> ex_text d <> [])
        /\ ex_source_file d = path_name p
        /\ ex_extraction_method d = py "ocr"
        /\ (ex_success d = true ->
            ex_error d = None /\ ex_char_count d = Some (length (ex_text d)))
        /\ (ex_error d <> None -> ex_text d = [] /\ ex_success d = false)).
Proof.
  unfold extract_text.
  destruct (path_exists p) eqn:Ex; cbn [negb].
  2:{ split; [split; [reflexivity|reflexivity]|].
      split; [split; [discriminate | intros [? _]; discriminate]|].
      discriminate. }
  destruct (bool_decide (lower (path_suffix p) ∈ supported_formats)) eqn:Es;
    cbn [negb].
  2:{ apply bool_decide_eq_false in Es.
      split; [split; discriminate|].
      split; [split; [intros _; split; [reflexivity | exact Es] | reflexivity]|].
      intros _ Hin. contradiction. }
  apply bool_decide_eq_true in Es.
  destruct (extract_try image_open convert_rgb ocr p) as [e|d] eqn:Et.
  - split; [split; discriminate|].
    split; [split; [discriminate | intros [_ Hn]; contradiction]|].
    intros _ _. eexists. split; [reflexivity|]. cbn.
    split; [split; [discriminate | congruence]|].
    repeat split; try discriminate.
  - split; [split; discriminate|].
    split; [split; [discriminate | intros [_ Hn]; contradiction]|].
    intros _ _. exists d. split; [reflexivity|].
    destruct (extract_try_ok p d Et) as (Hs & Hc & He & _ & Hf & Hm).
    split.
    { rewrite Hs. destruct (ex_text d) as [|c t]; cbn; split; intros H;
        [discriminate | exfalso; apply H; reflexivity | discriminate | reflexivity]. }
    split; [exact Hf|]. split; [exact Hm|]. split.
    + intros _. split; assumption.
    + intros Hne. congruence.
Qed.

(** X21.  When the engine finds only lines of confidence at most 0.6, or
    nothing at all, [extract_text] reports an empty text with [success]
    false, a character count of 0 and no error. *)
Theorem extract_text_low_confidence (p : path) (img : image) (lines : list ocr_line) rest :
  path_exists p = true ->
  lower (path_suffix p) ∈ supported_formats ->
  image_open p = inr img ->
  image_mode img = py "RGB" ->
  ocr img = inr (Some (Some lines :: rest)) ->
  Forall (fun l => (line_confidence l <= 6 # 10)%Q) lines ->
  exists d,
    extract_text lower image_open convert_rgb ocr p = Extracted d
    /\ ex_text d = [] /\ ex_success d = false
    /\ ex_char_count d = Some 0 /\ ex_error d = None.
Proof.
  intros Hex Hsuf Hopen Hmode Hocr Hlow.
  unfold extract_text, extract_try, _run_ocr.
  rewrite Hex, (bool_decide_eq_true_2 _ Hsuf). cbn [negb].
  rewrite Hopen, (bool_decide_eq_true_2 _ Hmode), Hocr.
  assert (Ht : ocr_text (Some (Some lines :: rest)) = []).
  { destruct lines as [|line lines]; [reflexivity|].
    unfold ocr_text. rewrite ocr_loop_acc, filter_none; [reflexivity|].
    eapply Forall_impl; [exact Hlow|]. intros l Hl. apply Qltb_le_false. exact Hl. }
  rewrite Ht. eexists. split; [reflexivity|]. repeat split.
Qed.

End ImageExtractorProperties.

Lemma extract_text_outcomes_witness :
  path_exists menu_photo = true
  /\ ascii_lower (path_suffix menu_photo) ∈ supported_formats
  /\ exists d,
       extract_text ascii_lower open_broken convert_same_size clear_ocr menu_photo
       = Extracted d
       /\ ex_success d = false
       /\ ex_text d = []
       /\ ex_error d = Some (py "cannot identify image file").
Proof.
  assert (Hex : path_exists menu_photo = true) by reflexivity.
  assert (Hsuf : ascii_lower (path_suffix menu_photo) ∈ supported_formats).
  { apply (proj1 (bool_decide_eq_true _)). vm_compute. reflexivity. }
  split; [exact Hex|]. split; [exact Hsuf|].
  destruct (extract_text_outcomes ascii_lower open_broken convert_same_size
              clear_ocr menu_photo) as (_ & _ & H).
  destruct (H Hex Hsuf) as (d & Hd & _ & _ & _ & _ & Herr).
  exists d. split; [exact Hd|].
  assert (He : ex_error d = Some (py "cannot identify image file")).
  { vm_compute in Hd. injection Hd as <-. reflexivity. }
  destruct Herr as [Ht Hs]; [rewrite He; discriminate|].
  split; [exact Hs|]. split; [exact Ht | exact He].
Defined.

Lemma extract_text_low_confidence_witness :
  exists d,
    extract_text ascii_lower open_rgb convert_same_size faint_ocr menu_photo
    = Extracted d
    /\ ex_text d = [] /\ ex_success d = false
    /\ ex_char_count d = Some 0 /\ ex_error d = None.
Proof.
  apply (extract_text_low_confidence ascii_lower open_rgb convert_same_size
           faint_ocr menu_photo
           {| image_mode := py "RGB"; image_size := (800, 600) |}
           [ {| line_text := py "smudge"; line_confidence := 1 # 2 |} ] []).
  - reflexivity.
  - apply (proj1 (bool_decide_eq_true _)). vm_compute. reflexivity.
  - reflexivity.
  - reflexivity.
  - reflexivity.
  - repeat constructor. simpl. unfold Qle. simpl. lia.
Defined.

(** ** The asset *)

Section AssetProperties.

Variable World : Type.
Variable llm : str -> World -> result llm_data * World.
Variable normalize : str -> str.
Variable fmt : Q -> str.
Variable lower : str -> str.
Variable universal_extract : dir_entry -> extracted.

Lemma parse_menu_pair text name (s : io World) :
  exists md s1, parse_menu llm normalize text name s = (Ok md, s1).
Proof.
  pose proof (parse_menu_ok World llm normalize text name s) as H.
  destruct (parse_menu llm normalize text name s) as [r s1].
  simpl in H. subst r. eauto.
Qed.

Lemma asset_loop_spec files results written (s : io World) :
  exists written' s1,
    asset_loop llm normalize fmt lower universal_extract files results written s =
    (Ok (results
           ++ map (fun f => entry_stem f ++ py ".csv")
                (List.filter (processed lower universal_extract) files),
         written ++ written'), s1)
    /\ map fst written' =
       map (fun f => entry_stem f ++ py ".csv")
         (List.filter (processed lower universal_extract) files).
Proof.
  revert results written s.
  induction files as [|file rest IH]; intros results written s.
  - exists [], s. simpl. rewrite !app_nil_r. split; reflexivity.
  - cbn [asset_loop List.filter].
    destruct (bool_decide (lower (entry_suffix file) ∈ asset_formats)) eqn:Eb;
      cbn [negb].
    2:{ assert (Hp : processed lower universal_extract file = false)
          by (unfold processed; rewrite Eb; reflexivity).
        rewrite Hp. apply IH. }
    destruct (extracted_success (universal_extract file)) eqn:Ee; cbn [negb].
    2:{ assert (Hp : processed lower universal_extract file = false)
          by (unfold processed; rewrite Eb, Ee; reflexivity).
        rewrite Hp. apply IH. }
    assert (Hp : processed lower universal_extract file = true)
      by (unfold processed; rewrite Eb, Ee; reflexivity).
    rewrite Hp.
    destruct (parse_menu_pair (extracted_text (universal_extract file))
                (Some (entry_stem file)) s) as (md & s1 & E).
    rewrite E.
    destruct (IH (results ++ [entry_stem file ++ py ".csv"])
                (written ++ [(entry_stem file ++ py ".csv", to_dataframe fmt md)])
                s1) as (written' & s2 & E2 & Hw).
    exists ((entry_stem file ++ py ".csv", to_dataframe fmt md) :: written'), s2.
    split.
    + rewrite E2. cbn [map]. rewrite <- !app_assoc. reflexivity.
    + cbn [map fst]. rewrite Hw. reflexivity.
Qed.

Lemma filter_length_le_bool {A} (f : A -> bool) l :
  length (List.filter f l) <= length l.
Proof.
  induction l as [|a l IH]; [reflexivity|]. simpl.
  destruct (f a); simpl; lia.
Qed.

(** X22.  The asset fails with [FileNotFoundError] without the input
    folder and with [ValueError] without the Azure settings.  Otherwise it
    completes, whatever the client does: it writes one CSV, named after
    the stem, for each entry with a supported suffix whose extraction
    succeeded, in the order of the entries, skips every other entry, and
    reports the number written. *)
Theorem menu_etl_asset_spec (files : list dir_entry) (s : io World) :
  (forall env_set,
      menu_etl_asset llm normalize fmt lower universal_extract
        false env_set files s = (AssetFileNotFoundError, s))
  /\ menu_etl_asset llm normalize fmt lower universal_extract
       true false files s = (AssetValueError, s)
  /\ exists written s1,
       menu_etl_asset llm normalize fmt lower universal_extract
         true true files s =
       (AssetCompleted
          (py "Completed ETL. Generated "
           ++ str_of_nat
                (length (List.filter (processed lower universal_extract) files))
           ++ py " file(s).")
          written, s1)
       /\ map fst written =
          map (fun f => entry_stem f ++ py ".csv")
            (List.filter (processed lower universal_extract) files)
       /\ length written <= length files.
Proof.
  split; [reflexivity|]. split; [reflexivity|].
  unfold menu_etl_asset. cbn [negb].
  destruct (asset_loop_spec files [] [] s) as (written & s1 & E & Hw).
  rewrite E. exists written, s1. cbn [app].
  split; [rewrite length_map; reflexivity|]. split; [exact Hw|].
  rewrite <- (length_map fst written), Hw, length_map.
  apply filter_length_le_bool.
Qed.

Lemma asset_loop_skips files results written (s : io World) :
  Forall (fun f => processed lower universal_extract f = false) files ->
  asset_loop llm normalize fmt lower universal_extract files results written s =
  (Ok (results, written), s).
Proof.
  induction 1 as [|file rest Hf _ IH]; [reflexivity|].
  cbn [asset_loop]. unfold processed in Hf.
  destruct (bool_decide (lower (entry_suffix file) ∈ asset_formats));
    cbn [negb]; [|exact IH].
  cbn [andb] in Hf. rewrite Hf. cbn [negb]. exact IH.
Qed.

(** X23.  Entries that are skipped cost nothing: when no entry has both a
    supported suffix and a successful extraction, the asset makes no call
    to the client, writes no file and reports 0 files. *)
Theorem menu_etl_asset_nothing_to_do (files : list dir_entry) (s : io World) :
  Forall (fun f => processed lower universal_extract f = false) files ->
  menu_etl_asset llm normalize fmt lower universal_extract true true files s =
  (AssetCompleted (py "Completed ETL. Generated 0 file(s).") [], s).
Proof.
  intros H. unfold menu_etl_asset. cbn [negb].
  rewrite (asset_loop_skips files [] [] s H). reflexivity.
Qed.

End AssetProperties.

Lemma menu_etl_asset_spec_witness :
  exists written s1,
    menu_etl_asset tea_client (fun t => t) format_2f ascii_lower sample_extract
      true true sample_entries io0 =
    (AssetCompleted (py "Completed ETL. Generated 1 file(s).") written, s1)
    /\ map fst written = [py "cafe.csv"].
Proof.
  destruct (menu_etl_asset_spec nat tea_client (fun t => t) format_2f ascii_lower
              sample_extract sample_entries io0)
    as (_ & _ & written & s1 & E & Hw & _).
  exists written, s1. split; [exact E | exact Hw].
Defined.

Lemma menu_etl_asset_nothing_to_do_witness :
  menu_etl_asset tea_client (fun t => t) format_2f ascii_lower sample_extract
    true true (drop 1 sample_entries) io0 =
  (AssetCompleted (py "Completed ETL. Generated 0 file(s).") [], io0).
Proof.
  apply (menu_etl_asset_nothing_to_do nat tea_client (fun t => t) format_2f
           ascii_lower sample_extract (drop 1 sample_entries) io0).
  repeat constructor.
Defined.

(** ** What decides validation *)



